(** * A shallow embedding of [server.js]

    The Express application of the repository: two singleton counters
    (visitor, question-request), chat records, the carousel gallery with
    its two upload paths, and the middleware that guards the routes.

    Conventions of the embedding.
    - A Mongo collection is the list of its documents in natural
      (insertion) order; [findOne()] answers the first one.
    - JS [Number]s that hold counts are integers of [Z] (the range in
      which JS arithmetic on them is exact).
    - An [async] handler is a function in a state-and-exception monad
      over [World]; [await] is sequencing, [try/catch] is [try_catch].
    - What the environment decides (whether an I/O call rejects, the
      clock, [Math.random]) is read from the world: [faults] scripts the
      outcome of the successive I/O calls. *)

From Stdlib Require Import ZArith NArith String Ascii List Sorted Permutation Lia Bool.
From Stdlib Require Import DecimalString Decimal.
From stdpp Require Import base option list strings gmap.

Set Warnings "-register-all".
Open Scope string_scope.
Open Scope list_scope.
Open Scope Z_scope.

(** ** Data model (the Mongoose schemas) *)

Definition ObjectId := N.
Definition Bytes := list Byte.byte.

(** [ChatDataSchema].  [questionCount] may be missing in a stored
    document, hence the option. *)
Record ChatDoc := {
  chat_id : ObjectId;
  chat_title : string;
  chat_content : string;
  chat_date : string;
  questionCount : option Z;
  chat_createdAt : Z
}.

(** [CarouselImageSchema]. *)
Record ImageDoc := {
  img_id : ObjectId;
  img_title : string;
  imageUrl : string;
  img_alt : string;
  img_order : Z;
  img_createdAt : Z
}.

(** [VisitorCounterSchema] and [QuestionRequestCounterSchema]: the same
    two fields. *)
Record CounterDoc := {
  ctr_id : ObjectId;
  count : Z;
  lastUpdated : Z
}.

Inductive CounterKind := Visitor | QuestionRequest.

Inductive Coll := CVisitorCounter | CQuestionRequestCounter | CChatData | CCarouselImage.

Definition coll_of (k : CounterKind) : Coll :=
  match k with Visitor => CVisitorCounter | QuestionRequest => CQuestionRequestCounter end.

(** What a run does to the outside, in order of occurrence. *)
Inductive Event :=
| EvFindOne (c : Coll)
| EvFind (c : Coll)
| EvSave (c : Coll)
| EvFindByIdAndUpdate (c : Coll)
| EvFindByIdAndDelete (c : Coll)
| EvWriteFile (path : string)
| EvUnlink (path : string)
| EvReadFile (path : string)
| EvSleep (ms : Z)
| EvConsoleError (msg : string).

Record World := {
  connected : bool;                    (* mongoose.connection.readyState === 1 *)
  clock : Z;                            (* Date.now() *)
  rands : list Z;                       (* successive Math.round(Math.random() * 1E9) *)
  faults : list (option string);        (* outcome of the next I/O calls; Some m: rejects with Error(m) *)
  nextId : N;                           (* generator of fresh ObjectIds *)
  visitorCounters : list CounterDoc;
  questionRequestCounters : list CounterDoc;
  chatData : list ChatDoc;
  carouselImages : list ImageDoc;
  files : gmap string Bytes;            (* files below __dirname, by relative path *)
  trace : list Event                    (* oldest first *)
}.

Definition set_clock (t : Z) (w : World) : World :=
  {| connected := connected w; clock := t; rands := rands w; faults := faults w;
     nextId := nextId w; visitorCounters := visitorCounters w;
     questionRequestCounters := questionRequestCounters w; chatData := chatData w;
     carouselImages := carouselImages w; files := files w; trace := trace w |}.

Definition set_rands (r : list Z) (w : World) : World :=
  {| connected := connected w; clock := clock w; rands := r; faults := faults w;
     nextId := nextId w; visitorCounters := visitorCounters w;
     questionRequestCounters := questionRequestCounters w; chatData := chatData w;
     carouselImages := carouselImages w; files := files w; trace := trace w |}.

Definition set_faults (f : list (option string)) (w : World) : World :=
  {| connected := connected w; clock := clock w; rands := rands w; faults := f;
     nextId := nextId w; visitorCounters := visitorCounters w;
     questionRequestCounters := questionRequestCounters w; chatData := chatData w;
     carouselImages := carouselImages w; files := files w; trace := trace w |}.

Definition set_nextId (n : N) (w : World) : World :=
  {| connected := connected w; clock := clock w; rands := rands w; faults := faults w;
     nextId := n; visitorCounters := visitorCounters w;
     questionRequestCounters := questionRequestCounters w; chatData := chatData w;
     carouselImages := carouselImages w; files := files w; trace := trace w |}.

Definition set_counters (k : CounterKind) (l : list CounterDoc) (w : World) : World :=
  {| connected := connected w; clock := clock w; rands := rands w; faults := faults w;
     nextId := nextId w;
     visitorCounters := match k with Visitor => l | QuestionRequest => visitorCounters w end;
     questionRequestCounters :=
       match k with Visitor => questionRequestCounters w | QuestionRequest => l end;
     chatData := chatData w;
     carouselImages := carouselImages w; files := files w; trace := trace w |}.

Definition set_chatData (l : list ChatDoc) (w : World) : World :=
  {| connected := connected w; clock := clock w; rands := rands w; faults := faults w;
     nextId := nextId w; visitorCounters := visitorCounters w;
     questionRequestCounters := questionRequestCounters w; chatData := l;
     carouselImages := carouselImages w; files := files w; trace := trace w |}.

Definition set_carouselImages (l : list ImageDoc) (w : World) : World :=
  {| connected := connected w; clock := clock w; rands := rands w; faults := faults w;
     nextId := nextId w; visitorCounters := visitorCounters w;
     questionRequestCounters := questionRequestCounters w; chatData := chatData w;
     carouselImages := l; files := files w; trace := trace w |}.

Definition set_files (f : gmap string Bytes) (w : World) : World :=
  {| connected := connected w; clock := clock w; rands := rands w; faults := faults w;
     nextId := nextId w; visitorCounters := visitorCounters w;
     questionRequestCounters := questionRequestCounters w; chatData := chatData w;
     carouselImages := carouselImages w; files := f; trace := trace w |}.

Definition emit (e : Event) (w : World) : World :=
  {| connected := connected w; clock := clock w; rands := rands w; faults := faults w;
     nextId := nextId w; visitorCounters := visitorCounters w;
     questionRequestCounters := questionRequestCounters w; chatData := chatData w;
     carouselImages := carouselImages w; files := files w; trace := trace w ++ [e] |}.

Definition counters (k : CounterKind) (w : World) : list CounterDoc :=
  match k with Visitor => visitorCounters w | QuestionRequest => questionRequestCounters w end.

(** ** The monad of handlers: state over [World], exceptions carrying
    the [message] of the thrown [Error]. *)

Inductive Result (A : Type) :=
| Ok (a : A)
| Throw (message : string).
Arguments Ok {A} a.
Arguments Throw {A} message.

Definition M (A : Type) : Type := World -> Result A * World.

Definition ret {A} (a : A) : M A := fun w => (Ok a, w).
Definition throw {A} (m : string) : M A := fun w => (Throw m, w).
Definition bind {A B} (c : M A) (k : A -> M B) : M B :=
  fun w => match c w with
           | (Ok a, w') => k a w'
           | (Throw m, w') => (Throw m, w')
           end.
Definition try_catch {A} (c : M A) (handler : string -> M A) : M A :=
  fun w => match c w with
           | (Ok a, w') => (Ok a, w')
           | (Throw m, w') => handler m w'
           end.
Definition tell (e : Event) : M unit := fun w => (Ok tt, emit e w).

Declare Scope handler_scope.
Delimit Scope handler_scope with handler.
Notation "'await' x <- c ;; k" := (bind c (fun x => k))
  (at level 10, x name, c at level 99, k at level 200) : handler_scope.
Notation "'await_' c ;; k" := (bind c (fun _ => k))
  (at level 10, c at level 99, k at level 200) : handler_scope.
Open Scope handler_scope.

(** One I/O call: it is recorded, then the environment's script says
    whether it rejects.  An exhausted script means no more failures. *)
Definition io (e : Event) : M unit :=
  fun w => let w1 := emit e w in
           match faults w1 with
           | Some m :: rest => (Throw m, set_faults rest w1)
           | None :: rest => (Ok tt, set_faults rest w1)
           | [] => (Ok tt, w1)
           end.

Definition date_now : M Z := fun w => (Ok (clock w), w).

(** [Math.round(Math.random() * 1E9)] *)
Definition random_1e9 : M Z :=
  fun w => match rands w with
           | r :: rest => (Ok r, set_rands rest w)
           | [] => (Ok 0, w)
           end.

(** [await new Promise(resolve => setTimeout(resolve, ms))] *)
Definition sleep (ms : Z) : M unit :=
  fun w => (Ok tt, set_clock (clock w + ms) (emit (EvSleep ms) w)).

Definition console_error (msg : string) : M unit := tell (EvConsoleError msg).

Definition fresh_id : M ObjectId :=
  fun w => (Ok (nextId w), set_nextId (N.succ (nextId w)) w).

(** ** Responses *)

Inductive JSON :=
| JNull
| JBool (b : bool)
| JNum (z : Z)
| JStr (s : string)
| JDate (t : Z)
| JOid (i : ObjectId)
| JArr (l : list JSON)
| JObj (fields : list (string * JSON)).

Inductive Body :=
| Json (j : JSON)             (* res.json(...) *)
| FileBody (content : Bytes)  (* res.sendFile / express.static *)
| ErrorPage (message : string). (* the framework's own error page *)

Record Response := { status : Z; body : Body }.

(** [res.json(o)] and [res.status(s).json(o)] *)
Definition res_json (o : list (string * JSON)) : Response :=
  {| status := 200; body := Json (JObj o) |}.
Definition res_status_json (s : Z) (o : list (string * JSON)) : Response :=
  {| status := s; body := Json (JObj o) |}.
Definition res_json_array (l : list JSON) : Response :=
  {| status := 200; body := Json (JArr l) |}.

(** The field [f] of a JSON response body. *)
Fixpoint assoc (f : string) (o : list (string * JSON)) : option JSON :=
  match o with
  | [] => None
  | (k, v) :: rest => if String.eqb k f then Some v else assoc f rest
  end.
Definition field (f : string) (r : Response) : option JSON :=
  match body r with
  | Json (JObj o) => assoc f o
  | _ => None
  end.

(** A handler runs to the end of its body; it has answered ([Some]) or
    fallen off the end without answering ([None]). *)
Definition Handler := World -> option Response * World.

(** An [async (req, res) => { ... }] whose every path ends in a
    response; a rejection that escapes is an unhandled one. *)
Definition respond (c : M Response) : Handler :=
  fun w => match c w with
           | (Ok r, w') => (Some r, w')
           | (Throw _, w') => (None, w')
           end.

(** ** What the platform provides

    Functions of Node and of the Mongo driver that the handlers call and
    whose text is not part of the application. *)
Class Platform := {
  (* new Date(t).toLocaleString('vi-VN') *)
  toLocaleString_viVN : Z -> string;
  (* path.extname *)
  path_extname : string -> string;
  (* Buffer.from(s, 'base64') *)
  buffer_from_base64 : string -> Bytes;
  (* the cast of a route parameter to an ObjectId; None: CastError *)
  castObjectId : string -> option ObjectId
}.

Definition quote : string := String (ascii_of_nat 34) EmptyString.

Definition cast_error (value model : string) : string :=
  "Cast to ObjectId failed for value " +:+ quote +:+ value +:+ quote
  +:+ " (type string) at path " +:+ quote +:+ "_id" +:+ quote
  +:+ " for model " +:+ quote +:+ model +:+ quote.

(** A JS number in a template string or a [+] with a string. *)
Definition string_of_Z (z : Z) : string := NilZero.string_of_int (Z.to_int z).

(** [v || d] on an optional string and on an optional number. *)
Definition or_string (v : option string) (d : string) : string :=
  match v with
  | Some s => if String.eqb s "" then d else s
  | None => d
  end.
Definition or_number (v : option Z) (d : Z) : Z :=
  match v with
  | Some n => if Z.eqb n 0 then d else n
  | None => d
  end.

(** Mongoose's [required] on a String path: present and not empty. *)
Definition required (v : option string) : option string :=
  match v with
  | Some s => if String.eqb s "" then None else Some s
  | None => None
  end.

(** [find().sort(...)]: insertion sort, keeping the natural order of
    documents with equal keys. *)
Section Sort.
Context {A : Type} (le : A -> A -> bool).
Fixpoint insert_sorted (x : A) (l : list A) : list A :=
  match l with
  | [] => [x]
  | y :: rest => if le x y then x :: y :: rest else y :: insert_sorted x rest
  end.
Fixpoint sort_by (l : list A) : list A :=
  match l with
  | [] => []
  | x :: rest => insert_sorted x (sort_by rest)
  end.
End Sort.

(** ** Counter collections *)

(** [Model.findOne().maxTimeMS(5000)] *)
Definition findOne (k : CounterKind) : M (option CounterDoc) :=
  await_ io (EvFindOne (coll_of k)) ;;
  fun w => (Ok (head (counters k w)), w).

(** [new Model({ count: c })]: a fresh [_id], [lastUpdated] defaults to
    [Date.now]. *)
Definition new_counter (c : Z) : M CounterDoc :=
  await i <- fresh_id ;;
  await t <- date_now ;;
  ret {| ctr_id := i; count := c; lastUpdated := t |}.

Fixpoint replace_counter (d : CounterDoc) (l : list CounterDoc) : option (list CounterDoc) :=
  match l with
  | [] => None
  | x :: rest =>
      if N.eqb (ctr_id x) (ctr_id d) then Some (d :: rest)
      else match replace_counter d rest with
           | Some rest' => Some (x :: rest')
           | None => None
           end
  end.

(** [counter.save()]: an insert for a document made by [new], an update
    of the stored document of the same [_id] otherwise. *)
Definition save_counter (k : CounterKind) (isNew : bool) (d : CounterDoc) : M unit :=
  await_ io (EvSave (coll_of k)) ;;
  fun w =>
    if isNew then (Ok tt, set_counters k (counters k w ++ [d]) w)
    else match replace_counter d (counters k w) with
         | Some l => (Ok tt, set_counters k l w)
         | None => (Throw "No document found for query", w)
         end.

(** [initializeVisitorCounter] / [initializeQuestionRequestCounter],
    run once when the connection opens. *)
Definition initializeCounter (k : CounterKind) : M unit :=
  try_catch
    (await counter <- findOne k ;;
     match counter with
     | None => await newCounter <- new_counter 0 ;; save_counter k true newCounter
     | Some _ => ret tt
     end)
    (fun m => console_error (match k with
                             | Visitor => "❌ Error initializing visitor counter: "
                             | QuestionRequest => "❌ Error initializing question request counter: "
                             end +:+ m)).

Definition initializeVisitorCounter := initializeCounter Visitor.
Definition initializeQuestionRequestCounter := initializeCounter QuestionRequest.

Inductive CounterOp := Get | Increment | Reset.

(** The [try] block of the three counter routes. *)
Definition increment_attempt (k : CounterKind) : M Response :=
  await found <- findOne k ;;
  await counter <-
    match found with
    | None => await c <- new_counter 1 ;; ret (true, c)
    | Some c =>
        await t <- date_now ;;
        ret (false, {| ctr_id := ctr_id c; count := count c + 1; lastUpdated := t |})
    end ;;
  await_ save_counter k (fst counter) (snd counter) ;;
  ret (res_json [("success", JBool true);
                 ("count", JNum (count (snd counter)));
                 ("lastUpdated", JDate (lastUpdated (snd counter)))]).

Definition get_attempt (k : CounterKind) : M Response :=
  await found <- findOne k ;;
  await counter <-
    match found with
    | None => await c <- new_counter 0 ;; await_ save_counter k true c ;; ret c
    | Some c => ret c
    end ;;
  ret (res_json [("success", JBool true);
                 ("count", JNum (count counter));
                 ("lastUpdated", JDate (lastUpdated counter))]).

Definition reset_message (k : CounterKind) : string :=
  match k with
  | Visitor => "Đã reset số lượt truy cập về 0"
  | QuestionRequest => "Đã reset số lượng câu hỏi về 0"
  end.

Definition reset_attempt (k : CounterKind) : M Response :=
  await found <- findOne k ;;
  await counter <-
    match found with
    | None => await c <- new_counter 0 ;; ret (true, c)
    | Some c =>
        await t <- date_now ;;
        ret (false, {| ctr_id := ctr_id c; count := 0; lastUpdated := t |})
    end ;;
  await_ save_counter k (fst counter) (snd counter) ;;
  ret (res_json [("success", JBool true);
                 ("message", JStr (reset_message k));
                 ("count", JNum (count (snd counter)))]).

Definition attempt (k : CounterKind) (op : CounterOp) : M Response :=
  match op with
  | Get => get_attempt k
  | Increment => increment_attempt k
  | Reset => reset_attempt k
  end.

(** The [try] block from its second step on: what the handler does when
    it resumes with the answer of its [findOne]. *)
Definition after_findOne (k : CounterKind) (op : CounterOp) (found : option CounterDoc)
  : M Response :=
  match op with
  | Get =>
      await counter <-
        match found with
        | None => await c <- new_counter 0 ;; await_ save_counter k true c ;; ret c
        | Some c => ret c
        end ;;
      ret (res_json [("success", JBool true);
                     ("count", JNum (count counter));
                     ("lastUpdated", JDate (lastUpdated counter))])
  | Increment =>
      await counter <-
        match found with
        | None => await c <- new_counter 1 ;; ret (true, c)
        | Some c =>
            await t <- date_now ;;
            ret (false, {| ctr_id := ctr_id c; count := count c + 1; lastUpdated := t |})
        end ;;
      await_ save_counter k (fst counter) (snd counter) ;;
      ret (res_json [("success", JBool true);
                     ("count", JNum (count (snd counter)));
                     ("lastUpdated", JDate (lastUpdated (snd counter)))])
  | Reset =>
      await counter <-
        match found with
        | None => await c <- new_counter 0 ;; ret (true, c)
        | Some c =>
            await t <- date_now ;;
            ret (false, {| ctr_id := ctr_id c; count := 0; lastUpdated := t |})
        end ;;
      await_ save_counter k (fst counter) (snd counter) ;;
      ret (res_json [("success", JBool true);
                     ("message", JStr (reset_message k));
                     ("count", JNum (count (snd counter)))])
  end.

(** Two requests that overlap.  A handler gives the event loop back at
    each [await]: the second request is taken up while the first awaits
    its [findOne], and both queries are answered before either handler
    resumes.  (First attempts; a failure ends the run.) *)
Definition overlapping (k : CounterKind) (op1 op2 : CounterOp) : M (Response * Response) :=
  await found1 <- findOne k ;;
  await found2 <- findOne k ;;
  await r1 <- after_findOne k op1 found1 ;;
  await r2 <- after_findOne k op2 found2 ;;
  ret (r1, r2).

(** The [error] text of the 500 answer and the label of the
    [console.error] line, per route. *)
Definition error_text (k : CounterKind) (op : CounterOp) : string :=
  match k, op with
  | Visitor, Increment => "Không thể cập nhật số lượt truy cập"
  | Visitor, Get => "Không thể lấy số lượt truy cập"
  | Visitor, Reset => "Không thể reset số lượt truy cập"
  | QuestionRequest, Increment => "Không thể cập nhật số lượng câu hỏi"
  | QuestionRequest, Get => "Không thể lấy số lượng câu hỏi"
  | QuestionRequest, Reset => "Không thể reset số lượng câu hỏi"
  end.

Definition error_label (k : CounterKind) (op : CounterOp) : string :=
  match k, op with
  | Visitor, Increment => "❌ Visitor counter error:"
  | Visitor, Get => "❌ Get visitor count error:"
  | Visitor, Reset => "❌ Reset visitor count error:"
  | QuestionRequest, Increment => "❌ Question request counter error:"
  | QuestionRequest, Get => "❌ Get question request count error:"
  | QuestionRequest, Reset => "❌ Reset question request count error:"
  end.

Definition counter_failure (k : CounterKind) (op : CounterOp) (message : string) : Response :=
  res_status_json 500 [("success", JBool false);
                       ("error", JStr (error_text k op));
                       ("details", JStr message)].

(** [while (retries > 0) { try { ... return res.json(...) }
       catch (err) { retries--; if (retries === 0) { ... return res.status(500)... }
                     await new Promise(resolve => setTimeout(resolve, 1000)); } }] *)
Fixpoint retry_loop (retries : nat) (k : CounterKind) (op : CounterOp) : Handler :=
  fun w =>
    match retries with
    | O => (None, w)
    | S retries' =>
        match attempt k op w with
        | (Ok r, w1) => (Some r, w1)
        | (Throw message, w1) =>
            match retries' with
            | O =>
                let '(_, w2) := console_error (error_label k op +:+ " " +:+ message) w1 in
                (Some (counter_failure k op message), w2)
            | S _ =>
                let '(_, w2) := sleep 1000 w1 in
                retry_loop retries' k op w2
            end
        end
    end.

(** The six counter routes: [let retries = 2; while ...]. *)
Definition counter_route (k : CounterKind) (op : CounterOp) : Handler :=
  retry_loop 2 k op.

Definition post_api_visitor := counter_route Visitor Increment.
Definition get_api_visitor := counter_route Visitor Get.
Definition post_api_visitor_reset := counter_route Visitor Reset.
Definition post_api_questions_request := counter_route QuestionRequest Increment.
Definition get_api_questions_request := counter_route QuestionRequest Get.
Definition post_api_questions_request_reset := counter_route QuestionRequest Reset.

(** ** Chat records *)

(** [{ createdAt: -1 }]: newest first. *)
Definition newer_first (a b : ChatDoc) : bool := chat_createdAt b <=? chat_createdAt a.

(** [ChatData.find().sort({ createdAt: -1 }).maxTimeMS(10000)] *)
Definition find_chat_newest_first : M (list ChatDoc) :=
  await_ io (EvFind CChatData) ;;
  fun w => (Ok (sort_by newer_first (chatData w)), w).

(** [ChatData.find().maxTimeMS(10000)] *)
Definition find_chat : M (list ChatDoc) :=
  await_ io (EvFind CChatData) ;;
  fun w => (Ok (chatData w), w).

(** [item => ({ id: item._id, title: item.title, content: item.content, date: item.date })] *)
Definition list_item (item : ChatDoc) : JSON :=
  JObj [("id", JOid (chat_id item));
        ("title", JStr (chat_title item));
        ("content", JStr (chat_content item));
        ("date", JStr (chat_date item))].

Definition get_api_data : Handler :=
  respond (try_catch
    (await data <- find_chat_newest_first ;;
     ret (res_json_array (map list_item data)))
    (fun message =>
       await_ console_error ("❌ Get all data error: " +:+ message) ;;
       ret (res_status_json 500 [("error", JStr "Không thể lấy dữ liệu");
                                 ("details", JStr message)]))).

Definition chat_validation (title content : option string) : option string :=
  match required title, required content with
  | Some _, Some _ => None
  | None, Some _ => Some "ChatData validation failed: title: Path `title` is required."
  | Some _, None => Some "ChatData validation failed: content: Path `content` is required."
  | None, None =>
      Some "ChatData validation failed: title: Path `title` is required., content: Path `content` is required."
  end.

(** [const newData = new ChatData({ title, content }); await newData.save();]
    The schema defaults fill [date], [questionCount] and [createdAt];
    validation runs before anything is sent to the store. *)
Definition create_chat `{Platform} (title content : option string) : M ChatDoc :=
  await i <- fresh_id ;;
  await t <- date_now ;;
  match chat_validation title content with
  | Some message => throw message
  | None =>
      let newData := {| chat_id := i; chat_title := default "" title;
                        chat_content := default "" content;
                        chat_date := toLocaleString_viVN t;
                        questionCount := Some 0; chat_createdAt := t |} in
      await_ io (EvSave CChatData) ;;
      fun w => (Ok newData, set_chatData (chatData w ++ [newData]) w)
  end.

Definition post_api_data `{Platform} (title content : option string) : Handler :=
  respond (try_catch
    (await newData <- create_chat title content ;;
     ret (res_json [("id", JOid (chat_id newData));
                    ("title", JStr (chat_title newData));
                    ("content", JStr (chat_content newData));
                    ("date", JStr (chat_date newData))]))
    (fun message => ret (res_status_json 400 [("error", JStr message)]))).

(** [{ $inc: { questionCount: 1 } }]; a missing field counts from 0. *)
Definition inc_questionCount (d : ChatDoc) : ChatDoc :=
  {| chat_id := chat_id d; chat_title := chat_title d; chat_content := chat_content d;
     chat_date := chat_date d; questionCount := Some (default 0 (questionCount d) + 1);
     chat_createdAt := chat_createdAt d |}.

Fixpoint update_by_id (i : ObjectId) (l : list ChatDoc) : option (ChatDoc * list ChatDoc) :=
  match l with
  | [] => None
  | d :: rest =>
      if N.eqb (chat_id d) i then Some (inc_questionCount d, inc_questionCount d :: rest)
      else match update_by_id i rest with
           | Some (d', rest') => Some (d', d :: rest')
           | None => None
           end
  end.

(** [ChatData.findByIdAndUpdate(id, { $inc: { questionCount: 1 } }, { new: true })] *)
Definition findByIdAndUpdate `{Platform} (id : string) : M (option ChatDoc) :=
  match castObjectId id with
  | None => throw (cast_error id "ChatData")
  | Some i =>
      await_ io (EvFindByIdAndUpdate CChatData) ;;
      fun w => match update_by_id i (chatData w) with
               | Some (d', l') => (Ok (Some d'), set_chatData l' w)
               | None => (Ok None, w)
               end
  end.

Definition json_of_count (q : option Z) : JSON :=
  match q with Some n => JNum n | None => JNull end.

Definition post_api_data_increment `{Platform} (id : string) : Handler :=
  respond (try_catch
    (await data <- findByIdAndUpdate id ;;
     match data with
     | None => ret (res_status_json 404 [("error", JStr "Question not found")])
     | Some data =>
         ret (res_json [("success", JBool true);
                        ("id", JOid (chat_id data));
                        ("title", JStr (chat_title data));
                        ("questionCount", json_of_count (questionCount data))])
     end)
    (fun message => ret (res_status_json 500 [("error", JStr message)]))).

(** [questions.reduce((sum, q) => sum + (q.questionCount || 0), 0)] *)
Definition reduce_questionCount (questions : list ChatDoc) : Z :=
  fold_left (fun sum q => sum + or_number (questionCount q) 0) questions 0.

Definition get_api_questions_total_count : Handler :=
  respond (try_catch
    (await questions <- find_chat ;;
     ret (res_json [("success", JBool true);
                    ("totalCount", JNum (reduce_questionCount questions));
                    ("totalQuestions", JNum (Z.of_nat (length questions)))]))
    (fun message =>
       await_ console_error ("❌ Get total question count error: " +:+ message) ;;
       ret (res_status_json 500 [("error", JStr "Không thể lấy số lượng câu hỏi");
                                 ("details", JStr message)]))).

Fixpoint remove_chat (i : ObjectId) (l : list ChatDoc) : list ChatDoc :=
  match l with
  | [] => []
  | d :: rest => if N.eqb (chat_id d) i then rest else d :: remove_chat i rest
  end.

(** [ChatData.findByIdAndDelete(req.params.id)] *)
Definition delete_api_data `{Platform} (id : string) : Handler :=
  respond (try_catch
    (match castObjectId id with
     | None => throw (cast_error id "ChatData")
     | Some i =>
         await_ io (EvFindByIdAndDelete CChatData) ;;
         await_ (fun w => (Ok tt, set_chatData (remove_chat i (chatData w)) w)) ;;
         ret (res_json [("message", JStr "Deleted successfully")])
     end)
    (fun message => ret (res_status_json 500 [("error", JStr message)]))).

(** ** The upload directory *)

(** [path.join(__dirname, p)], relative to [__dirname].  [path.join]
    normalizes what it has glued: empty segments and [.] go, [..] takes
    back the segment before it (and stays when there is none: the path
    then leaves [__dirname]), a trailing slash is kept. *)
Fixpoint split_slash (s : string) : list string :=
  match s with
  | EmptyString => [""]
  | String c rest =>
      if Ascii.eqb c "/" then "" :: split_slash rest
      else match split_slash rest with
           | segment :: segments => String c segment :: segments
           | [] => [String c ""]
           end
  end.

Fixpoint resolve_dots (segments : list string) (seen : list string) : list string :=
  match segments with
  | [] => rev seen
  | segment :: rest =>
      if String.eqb segment "" || String.eqb segment "." then resolve_dots rest seen
      else if String.eqb segment ".." then
        match seen with
        | top :: below =>
            if String.eqb top ".." then resolve_dots rest (".." :: seen)
            else resolve_dots rest below
        | [] => resolve_dots rest [".."]
        end
      else resolve_dots rest (segment :: seen)
  end.

Fixpoint join_path (segments : list string) : string :=
  match segments with
  | [] => ""
  | [s] => s
  | s :: rest => s +:+ "/" +:+ join_path rest
  end.

Definition path_join (p : string) : string :=
  match resolve_dots (split_slash p) [] with
  | [] => "."
  | segments =>
      join_path segments
      +:+ match last (split_slash p) with
          | Some EmptyString => "/"
          | _ => ""
          end
  end.

(** [uploadDir = path.join(__dirname, 'uploads')], relative to
    [__dirname]. *)
Definition uploadDir : string := "uploads".

(** [path.join(uploadDir, name)] *)
Definition in_uploadDir (name : string) : string := path_join (uploadDir +:+ "/" +:+ name).

(** [fs.writeFileSync(path, data)] (also the write multer's disk storage
    performs). *)
Definition writeFile (path : string) (data : Bytes) : M unit :=
  await_ io (EvWriteFile path) ;;
  fun w => (Ok tt, set_files (<[path := data]> (files w)) w).

(** [fs.unlink(path, cb)]: the error, if any, goes to the callback. *)
Definition unlink (path : string) : M unit :=
  await_ io (EvUnlink path) ;;
  fun w => match files w !! path with
           | Some _ => (Ok tt, set_files (delete path (files w)) w)
           | None => (Throw "ENOENT: no such file or directory", w)
           end.

(** [fs.unlink(path, () => {})] *)
Definition unlink_ignoring_errors (path : string) : M unit :=
  try_catch (unlink path) (fun _ => ret tt).

(** ** Carousel images *)

(** A gallery record as [res.json] sends it (the version key left out). *)
Definition json_of_image (d : ImageDoc) : JSON :=
  JObj [("_id", JOid (img_id d));
        ("title", JStr (img_title d));
        ("imageUrl", JStr (imageUrl d));
        ("alt", JStr (img_alt d));
        ("order", JNum (img_order d));
        ("createdAt", JDate (img_createdAt d))].

Definition by_order (a b : ImageDoc) : bool := img_order a <=? img_order b.

Definition get_api_carousel : Handler :=
  respond (try_catch
    (await_ io (EvFind CCarouselImage) ;;
     await images <- (fun w => (Ok (sort_by by_order (carouselImages w)), w)) ;;
     ret (res_json_array (map json_of_image images)))
    (fun message => ret (res_status_json 500 [("error", JStr message)]))).

Definition image_validation (title url : option string) : option string :=
  match required title, required url with
  | Some _, Some _ => None
  | None, Some _ => Some "CarouselImage validation failed: title: Path `title` is required."
  | Some _, None => Some "CarouselImage validation failed: imageUrl: Path `imageUrl` is required."
  | None, None =>
      Some "CarouselImage validation failed: title: Path `title` is required., imageUrl: Path `imageUrl` is required."
  end.

(** [const newImage = new CarouselImage({ title, imageUrl, alt, order });
     await newImage.save();] *)
Definition create_image (title url alt : option string) (order : Z) : M ImageDoc :=
  await i <- fresh_id ;;
  await t <- date_now ;;
  match image_validation title url with
  | Some message => throw message
  | None =>
      let newImage := {| img_id := i; img_title := default "" title;
                         imageUrl := default "" url; img_alt := default "" alt;
                         img_order := order; img_createdAt := t |} in
      await_ io (EvSave CCarouselImage) ;;
      fun w => (Ok newImage, set_carouselImages (carouselImages w ++ [newImage]) w)
  end.

(** The fields the routes read from [req.body], at the types the schemas
    give them; a missing field is [None].  (A field of another JSON
    type, which the schema would fail to cast at [save], is one of the
    causes of a rejected save that [faults] stands for.) *)
Record ReqBody := {
  b_title : option string;
  b_content : option string;
  b_imageUrl : option string;
  b_imageData : option string;
  b_alt : option string;
  b_order : option Z
}.

Definition post_api_carousel (b : ReqBody) : Handler :=
  respond (try_catch
    (await newImage <- create_image (b_title b) (b_imageUrl b) (b_alt b)
                                    (or_number (b_order b) 0) ;;
     ret {| status := 200; body := Json (json_of_image newImage) |})
    (fun message => ret (res_status_json 400 [("error", JStr message)]))).

(** *** Multipart upload: multer *)

(** A file part of a multipart body. *)
Record FilePart := {
  fieldname : string;
  originalname : string;
  mimetype : string;
  content : Bytes
}.

(** [req.file] *)
Record ReqFile := { filename : string; file_path : string }.

Definition allowedMimes : list string :=
  ["image/jpeg"; "image/png"; "image/gif"; "image/webp"].

(** [fileFilter]: [cb(null, true)] or [cb(new Error(...))]. *)
Definition fileFilter (file : FilePart) : Result bool :=
  if existsb (String.eqb (mimetype file)) allowedMimes then Ok true
  else Throw "Only image files are allowed".

(** [Date.now() + '-' + Math.round(Math.random() * 1E9) + path.extname(file.originalname)] *)
Definition storage_filename `{Platform} (file : FilePart) : M string :=
  await t <- date_now ;;
  await r <- random_1e9 ;;
  ret (string_of_Z t +:+ "-" +:+ string_of_Z r +:+ path_extname (originalname file)).

(** [upload.single(field)]: a file part under another field name is
    refused, then the filter decides, then the disk storage writes. *)
Definition upload_single `{Platform} (field : string) (part : option FilePart)
  : M (option ReqFile) :=
  match part with
  | None => ret None
  | Some file =>
      if negb (String.eqb (fieldname file) field) then throw "Unexpected field"
      else match fileFilter file with
           | Throw message => throw message
           | Ok false => ret None
           | Ok true =>
               await name <- storage_filename file ;;
               await_ writeFile (in_uploadDir name) (content file) ;;
               ret (Some {| filename := name; file_path := in_uploadDir name |})
           end
  end.

Definition post_api_carousel_upload (file : option ReqFile) (b : ReqBody) : Handler :=
  respond (try_catch
    (match file with
     | None => ret (res_status_json 400 [("error", JStr "No image file provided")])
     | Some f =>
         let url := "/uploads/" +:+ filename f in
         await newImage <- create_image (Some (or_string (b_title b) "Untitled")) (Some url)
                                        (Some (or_string (b_alt b) ""))
                                        (or_number (b_order b) 0) ;;
         ret (res_json [("success", JBool true);
                        ("message", JStr "Image uploaded successfully");
                        ("data", json_of_image newImage)])
     end)
    (fun message =>
       await_ match file with
              | Some f => unlink_ignoring_errors (file_path f)
              | None => ret tt
              end ;;
       ret (res_status_json 400 [("error", JStr message)]))).

(** An error handed to [next(err)]: the application registers no
    error-handling middleware, so the framework's final handler answers,
    with status 500 for an error that carries no status of its own. *)
Definition final_handler (message : string) : Response :=
  {| status := 500; body := ErrorPage message |}.

(** [app.post('/api/carousel/upload', upload.single('image'), async (req, res) => ...)] *)
Definition upload_route `{Platform} (part : option FilePart) (b : ReqBody) : Handler :=
  fun w => match upload_single "image" part w with
           | (Throw message, w') => (Some (final_handler message), w')
           | (Ok file, w') => post_api_carousel_upload file b w'
           end.

(** *** Base64 upload *)

Fixpoint drop_prefix (p s : string) : option string :=
  match p, s with
  | EmptyString, _ => Some s
  | String a p', String b s' => if Ascii.eqb a b then drop_prefix p' s' else None
  | String _ _, EmptyString => None
  end.

(** [\w] *)
Definition is_word (c : ascii) : bool :=
  let n := nat_of_ascii c in
  ((48 <=? n) && (n <=? 57) || (65 <=? n) && (n <=? 90)
   || (97 <=? n) && (n <=? 122) || (n =? 95))%nat.

Fixpoint skip_word (s : string) : string :=
  match s with
  | String c rest => if is_word c then skip_word rest else s
  | EmptyString => EmptyString
  end.

(** [imageData.replace(/^data:image\/\w+;base64,/, '')] *)
Definition strip_data_prefix (imageData : string) : string :=
  match drop_prefix "data:image/" imageData with
  | Some rest =>
      match rest with
      | String c _ =>
          if is_word c then
            match drop_prefix ";base64," (skip_word rest) with
            | Some data => data
            | None => imageData
            end
          else imageData
      | EmptyString => imageData
      end
  | None => imageData
  end.

Definition post_api_carousel_upload_base64 `{Platform} (b : ReqBody) : Handler :=
  respond (try_catch
    (match required (b_imageData b) with
     | None => ret (res_status_json 400 [("error", JStr "No image data provided")])
     | Some imageData =>
         let base64Data := strip_data_prefix imageData in
         await t <- date_now ;;
         await r <- random_1e9 ;;
         let name := "base64-" +:+ string_of_Z t +:+ "-" +:+ string_of_Z r +:+ ".png" in
         await_ writeFile (in_uploadDir name) (buffer_from_base64 base64Data) ;;
         let url := "/uploads/" +:+ name in
         await newImage <- create_image (Some (or_string (b_title b) "Untitled")) (Some url)
                                        (Some (or_string (b_alt b) ""))
                                        (or_number (b_order b) 0) ;;
         ret (res_json [("success", JBool true);
                        ("message", JStr "Image uploaded successfully");
                        ("data", json_of_image newImage)])
     end)
    (fun message => ret (res_status_json 400 [("error", JStr message)]))).

Fixpoint remove_image (i : ObjectId) (l : list ImageDoc) : option ImageDoc * list ImageDoc :=
  match l with
  | [] => (None, [])
  | d :: rest =>
      if N.eqb (img_id d) i then (Some d, rest)
      else let '(found, rest') := remove_image i rest in (found, d :: rest')
  end.

(** [path.join(__dirname, image.imageUrl)], relative to [__dirname]. *)
Definition below_dirname (url : string) : string := path_join url.

Definition delete_api_carousel `{Platform} (id : string) : Handler :=
  respond (try_catch
    (match castObjectId id with
     | None => throw (cast_error id "CarouselImage")
     | Some i =>
         await_ io (EvFindByIdAndDelete CCarouselImage) ;;
         await image <- (fun w => let '(found, rest) := remove_image i (carouselImages w) in
                                  (Ok found, set_carouselImages rest w)) ;;
         await_ match image with
                | Some d =>
                    if String.prefix "/uploads/" (imageUrl d) then
                      try_catch (unlink (below_dirname (imageUrl d)))
                                (fun err => console_error ("Error deleting file: " +:+ err))
                    else ret tt
                | None => ret tt
                end ;;
         ret (res_json [("message", JStr "Deleted successfully")])
     end)
    (fun message => ret (res_status_json 500 [("error", JStr message)]))).

(** ** The application: middleware stack and routes *)

Inductive Method := GET | HEAD | POST | PUT | DELETE | OPTIONS.

(** What the raw body is to the body parsers: one they accept (or no
    body at all), JSON that does not parse, a body over the limit. *)
Inductive Payload :=
| Accepted
| Malformed (message : string)
| TooLarge.

(** A request: the non-empty segments of its path and whether the path
    ends with a slash, its raw body as the parsers see it and the fields
    it holds, the file part of a multipart body. *)
Record Request := {
  req_method : Method;
  req_path : list string;
  req_trailing_slash : bool;
  req_payload : Payload;
  req_body : ReqBody;
  req_file : option FilePart
}.

(** A middleware given to [app.use]: it answers, or it calls [next()]
    ([None]) and the request goes on as it is. *)
Definition Middleware := Request -> World -> option (Response * World).

(** The middlewares that the application takes from its libraries
    (lines 43-47); their text is not part of the application. *)
Class Framework := {
  (* cors() *)
  use_cors : Middleware;
  (* bodyParser.json({ limit: '50mb' }) *)
  use_json : Middleware;
  (* bodyParser.urlencoded({ limit: '50mb', extended: true }) *)
  use_urlencoded : Middleware;
  (* express.static(root), for the path below its mount point *)
  use_static : list string -> list string -> Middleware
}.

(** [isMongoReady] *)
Definition isMongoReady (w : World) : bool := connected w.

Definition service_unavailable : Response :=
  res_status_json 503 [("success", JBool false);
                       ("error", JStr "Database not connected");
                       ("message", JStr "Please try again in a few moments")].

(** [res.sendFile(path.join(__dirname, name))] *)
Definition sendFile (name : string) : Handler :=
  fun w => match files w !! name with
           | Some data => (Some {| status := 200; body := FileBody data |},
                           emit (EvReadFile name) w)
           | None => (Some {| status := 404; body := ErrorPage "ENOENT: no such file or directory" |},
                      emit (EvReadFile name) w)
           end.

Definition not_found : Handler :=
  fun w => (Some {| status := 404; body := ErrorPage "Not Found" |}, w).

(** The route table, in the order of registration.  [app.get] also
    answers HEAD. *)
Definition routes `{Platform} (req : Request) : Handler :=
  let m := req_method req in
  let p := req_path req in
  let b := req_body req in
  match m, p with
  | POST, [a; v] =>
      if decide (a = "api" ∧ v = "visitor") then post_api_visitor
      else if decide (a = "api" ∧ v = "data") then post_api_data (b_title b) (b_content b)
      else if decide (a = "api" ∧ v = "carousel") then post_api_carousel b
      else not_found
  | (GET | HEAD), [a; v] =>
      if decide (a = "api" ∧ v = "visitor") then get_api_visitor
      else if decide (a = "api" ∧ v = "data") then get_api_data
      else if decide (a = "api" ∧ v = "carousel") then get_api_carousel
      else not_found
  | POST, [a; v; r] =>
      if decide (a = "api" ∧ v = "visitor" ∧ r = "reset") then post_api_visitor_reset
      else if decide (a = "api" ∧ v = "questions" ∧ r = "request") then post_api_questions_request
      else if decide (a = "api" ∧ v = "carousel" ∧ r = "upload") then upload_route (req_file req) b
      else if decide (a = "api" ∧ v = "carousel" ∧ r = "upload-base64")
           then post_api_carousel_upload_base64 b
      else not_found
  | (GET | HEAD), [a; v; r] =>
      if decide (a = "api" ∧ v = "questions" ∧ r = "request") then get_api_questions_request
      else if decide (a = "api" ∧ v = "questions" ∧ r = "total-count")
           then get_api_questions_total_count
      else not_found
  | POST, [a; v; r; x] =>
      if decide (a = "api" ∧ v = "questions" ∧ r = "request" ∧ x = "reset")
      then post_api_questions_request_reset
      else if decide (a = "api" ∧ v = "data" ∧ x = "increment") then post_api_data_increment r
      else not_found
  | DELETE, [a; v; id] =>
      if decide (a = "api" ∧ v = "data") then delete_api_data id
      else if decide (a = "api" ∧ v = "carousel") then delete_api_carousel id
      else not_found
  | (GET | HEAD), [a] =>
      if decide (a = "admin") then sendFile "admin.html" else not_found
  | (GET | HEAD), [] => sendFile "index.html"
  | _, _ => not_found
  end.

(** The stack of [app.use] calls in front of the check, in the order of
    lines 43-47: cors, the two body parsers, the static middleware of
    the application directory, the one mounted at [/uploads]. *)
Definition front `{Framework} : Middleware :=
  fun req w =>
    match use_cors req w with
    | Some out => Some out
    | None =>
        match use_json req w with
        | Some out => Some out
        | None =>
            match use_urlencoded req w with
            | Some out => Some out
            | None =>
                match use_static [] (req_path req) req w with
                | Some out => Some out
                | None =>
                    match req_path req with
                    | first :: rest =>
                        if String.eqb first uploadDir
                        then use_static [uploadDir] rest req w else None
                    | [] => None
                    end
                end
            end
        end
    end.

(** The application: the middlewares of lines 43-47, the check of the
    database connection (lines 156-165), the routes. *)
Definition app `{Platform} `{Framework} (req : Request) : Handler :=
  fun w =>
    match front req w with
    | Some (r, w') => (Some r, w')
    | None =>
        if negb (isMongoReady w) then (Some service_unavailable, w)
        else routes req w
    end.

(** ** An instance of the platform

    Used to run the handlers on concrete requests. *)

Definition hex_digit (c : ascii) : option N :=
  let n := N_of_ascii c in
  if ((48 <=? n) && (n <=? 57))%N then Some (n - 48)%N
  else if ((97 <=? n) && (n <=? 102))%N then Some (n - 87)%N
  else if ((65 <=? n) && (n <=? 70))%N then Some (n - 55)%N
  else None.

Fixpoint parse_hex (s : string) (acc : N) : option N :=
  match s with
  | EmptyString => Some acc
  | String c rest =>
      match hex_digit c with
      | Some d => parse_hex rest (16 * acc + d)%N
      | None => None
      end
  end.

Fixpoint bytes_value (s : string) (acc : N) : N :=
  match s with
  | EmptyString => acc
  | String c rest => bytes_value rest (256 * acc + N_of_ascii c)%N
  end.

(** The driver's rule: 24 hex digits, or a string of 12 bytes. *)
Definition objectid_of_string (s : string) : option ObjectId :=
  if Nat.eqb (String.length s) 24 then parse_hex s 0%N
  else if Nat.eqb (String.length s) 12 then Some (bytes_value s 0%N)
  else None.

(** The extension of a file name: from its last dot, when that dot is
    not the first character. *)
Fixpoint last_dot (s : string) (seen : option string) : string :=
  match s with
  | EmptyString => default "" seen
  | String c rest =>
      if Ascii.eqb c "." then last_dot rest (Some s)
      else if Ascii.eqb c "/" then last_dot rest None
      else last_dot rest seen
  end.
Definition extname (s : string) : string :=
  match s with
  | String _ rest => last_dot rest None
  | EmptyString => ""
  end.

(** A base64 decoder that skips what is not in the alphabet and stops
    at the padding. *)
Definition sextet (c : ascii) : option N :=
  let n := N_of_ascii c in
  if ((65 <=? n) && (n <=? 90))%N then Some (n - 65)%N
  else if ((97 <=? n) && (n <=? 122))%N then Some (n - 71)%N
  else if ((48 <=? n) && (n <=? 57))%N then Some (n + 4)%N
  else if ((n =? 43) || (n =? 45))%N then Some 62%N
  else if ((n =? 47) || (n =? 95))%N then Some 63%N
  else None.

Fixpoint sextets (s : string) : list N :=
  match s with
  | EmptyString => []
  | String c rest =>
      if Ascii.eqb c "=" then []
      else match sextet c with
           | Some v => v :: sextets rest
           | None => sextets rest
           end
  end.

Definition byte_of_N (n : N) : Byte.byte := default Byte.x00 (Byte.of_N (n mod 256)%N).

Fixpoint pack (l : list N) : Bytes :=
  match l with
  | a :: b :: c :: d :: rest =>
      let v := (a * 262144 + b * 4096 + c * 64 + d)%N in
      byte_of_N (v / 65536) :: byte_of_N (v / 256) :: byte_of_N v :: pack rest
  | [a; b; c] =>
      let v := (a * 4096 + b * 64 + c)%N in
      [byte_of_N (v / 1024); byte_of_N (v / 4)]
  | [a; b] => [byte_of_N ((a * 64 + b) / 16)]
  | _ => []
  end.

Definition base64_decode (s : string) : Bytes := pack (sextets s).

Definition node : Platform := {|
  toLocaleString_viVN := string_of_Z;
  path_extname := extname;
  buffer_from_base64 := base64_decode;
  castObjectId := objectid_of_string
|}.

(** ** An instance of the framework *)

Definition is_read (m : Method) : bool :=
  match m with GET | HEAD => true | _ => false end.

(** [cors()]: a preflight is answered at once. *)
Definition cors : Middleware :=
  fun req w =>
    match req_method req with
    | OPTIONS => Some ({| status := 204; body := Json JNull |}, w)
    | _ => None
    end.

(** The body parsers: a body they refuse is an error with its own
    status, answered by the framework. *)
Definition body_parser : Middleware :=
  fun req w =>
    match req_payload req with
    | Accepted => None
    | Malformed message => Some ({| status := 400; body := ErrorPage message |}, w)
    | TooLarge => Some ({| status := 413; body := ErrorPage "request entity too large" |}, w)
    end.

(** Directories below [__dirname]: [uploads], made at start-up (lines
    14-17), and those that hold a file. *)
Definition is_directory (w : World) (dir : string) : bool :=
  String.eqb dir uploadDir
  || existsb (fun entry => String.prefix (dir +:+ "/") (fst entry)) (map_to_list (files w)).

Definition serve_file (target : string) (w : World) : option (Response * World) :=
  match files w !! target with
  | Some data => Some ({| status := 200; body := FileBody data |}, emit (EvReadFile target) w)
  | None => None
  end.

(** [express.static(root)] for the path [segments] below its mount
    point: only GET and HEAD, no dotfiles; an existing file is sent; a
    directory named without its trailing slash is answered with a
    redirect to the same path with the slash; a directory named with it
    is answered with its [index.html] when there is one; anything else
    is passed on. *)
Definition express_static (root segments : list string) : Middleware :=
  fun req w =>
    if negb (is_read (req_method req)) then None
    else if existsb (String.prefix ".") segments then None
    else
      match root ++ segments with
      | [] => serve_file "index.html" w
      | full =>
          let target := join_path full in
          match segments, req_trailing_slash req with
          | _ :: _, false =>
              match serve_file target w with
              | Some out => Some out
              | None =>
                  if is_directory w target
                  then Some ({| status := 301;
                                body := ErrorPage ("Redirecting to /" +:+ target +:+ "/") |}, w)
                  else None
              end
          | _, _ =>
              if is_directory w target then serve_file (target +:+ "/index.html") w else None
          end
      end.

Definition express : Framework := {|
  use_cors := cors;
  use_json := body_parser;
  use_urlencoded := body_parser;
  use_static := express_static
|}.

(** A world with nothing in it, connected, with no failure scripted. *)
Definition empty_world : World :=
  {| connected := true; clock := 1700000000000; rands := []; faults := [];
     nextId := 1%N; visitorCounters := []; questionRequestCounters := [];
     chatData := []; carouselImages := []; files := ∅; trace := [] |}.

(** ** Observations used in the statements *)

(** The stored state: the four collections and the files. *)
Definition store (w : World)
  : list CounterDoc * list CounterDoc * list ChatDoc * list ImageDoc * gmap string Bytes :=
  (visitorCounters w, questionRequestCounters w, chatData w, carouselImages w, files w).

(** The first [n] I/O calls from [w] on do not reject. *)
Definition io_ok (n : nat) (w : World) : bool :=
  forallb (fun f => match f with None => true | Some _ => false end) (take n (faults w)).

(** The world after an I/O call that did not reject. *)
Definition after_io (e : Event) (w : World) : World :=
  match faults w with
  | [] => emit e w
  | _ :: rest => set_faults rest (emit e w)
  end.

Definition no_body : ReqBody :=
  {| b_title := None; b_content := None; b_imageUrl := None; b_imageData := None;
     b_alt := None; b_order := None |}.

Definition request (m : Method) (p : list string) : Request :=
  {| req_method := m; req_path := p; req_trailing_slash := false; req_payload := Accepted;
     req_body := no_body; req_file := None |}.

(** The database is down; the front page is in the application
    directory. *)
Definition offline_world : World :=
  {| connected := false; clock := 1700000000000; rands := []; faults := [];
     nextId := 1%N; visitorCounters := []; questionRequestCounters := [];
     chatData := []; carouselImages := [];
     files := {[ "index.html" := [Byte.x3c; Byte.x68; Byte.x31; Byte.x3e] ]};
     trace := [] |}.

(** A PDF sent as the [image] part of a multipart upload. *)
Definition pdf_part : FilePart :=
  {| fieldname := "image"; originalname := "paper.pdf"; mimetype := "application/pdf";
     content := [Byte.x25; Byte.x50; Byte.x44; Byte.x46] |}.

Definition png_part : FilePart :=
  {| fieldname := "image"; originalname := "cat.png"; mimetype := "image/png";
     content := [Byte.x89; Byte.x50; Byte.x4e; Byte.x47] |}.

(** The write of the file will succeed, the save of the record will be
    rejected. *)
Definition save_rejected_world : World :=
  set_rands [42] (set_faults [None; Some "E11000 duplicate key"] empty_world).

Definition base64_body (data : string) : ReqBody :=
  {| b_title := Some "cat"; b_content := None; b_imageUrl := None; b_imageData := Some data;
     b_alt := None; b_order := None |}.

Definition upload_request (part : FilePart) : Request :=
  {| req_method := POST; req_path := ["api"; "carousel"; "upload"];
     req_trailing_slash := false; req_payload := Accepted; req_body := no_body;
     req_file := Some part |}.

(** The next value of [Math.round(Math.random() * 1E9)]. *)
Definition next_random (w : World) : Z :=
  match rands w with r :: _ => r | [] => 0 end.

(** The names the two upload paths give to the file they write. *)
Definition upload_name `{Platform} (file : FilePart) (w : World) : string :=
  string_of_Z (clock w) +:+ "-" +:+ string_of_Z (next_random w)
  +:+ path_extname (originalname file).
Definition base64_name (w : World) : string :=
  "base64-" +:+ string_of_Z (clock w) +:+ "-" +:+ string_of_Z (next_random w) +:+ ".png".

(** Attempts of a counter route in a run: each starts with [findOne]. *)
Definition is_findOne (k : CounterKind) (e : Event) : bool :=
  match e, k with
  | EvFindOne CVisitorCounter, Visitor => true
  | EvFindOne CQuestionRequestCounter, QuestionRequest => true
  | _, _ => false
  end.
Definition attempts (k : CounterKind) (evs : list Event) : nat :=
  length (filter (fun e => is_findOne k e = true) evs).

(** The waits of a run, in order. *)
Fixpoint waits (evs : list Event) : list Z :=
  match evs with
  | [] => []
  | EvSleep ms :: rest => ms :: waits rest
  | _ :: rest => waits rest
  end.

(** What the environment may have changed between two requests. *)
Record Env := {
  env_connected : bool;
  env_clock : Z;
  env_rands : list Z;
  env_faults : list (option string)
}.

Definition with_env (e : Env) (w : World) : World :=
  {| connected := env_connected e; clock := env_clock e; rands := env_rands e;
     faults := env_faults e; nextId := nextId w; visitorCounters := visitorCounters w;
     questionRequestCounters := questionRequestCounters w; chatData := chatData w;
     carouselImages := carouselImages w; files := files w; trace := trace w |}.

(** Counter operations served one after the other, each in its own
    environment: a handler has answered before the next request is
    taken up.  (Requests that overlap are [overlapping].) *)
Definition serve (rq : Env * CounterKind * CounterOp) (w : World) : World :=
  let '(e, k, op) := rq in snd (counter_route k op (with_env e w)).

Definition serve_all (rqs : list (Env * CounterKind * CounterOp)) (w : World) : World :=
  fold_left (fun w rq => serve rq w) rqs w.

(** The retry policy in the words of the specification: up to three
    attempts in all. *)
Definition spec_counter_route (k : CounterKind) (op : CounterOp) : Handler :=
  retry_loop 3 k op.

(** The sum of the question counts, a missing one counting for 0. *)
Definition sum_questionCount (l : list ChatDoc) : Z :=
  fold_right Z.add 0 (map (fun q => default 0 (questionCount q)) l).

Definition chat_with (i : ObjectId) (n : option Z) (t : Z) : ChatDoc :=
  {| chat_id := i; chat_title := "q"; chat_content := "a"; chat_date := "01/01/2024";
     questionCount := n; chat_createdAt := t |}.

(** How one operation may change a counter collection: an empty one
    stays empty or receives its document; otherwise the first document
    is kept, under the same [_id], and nothing is added. *)
Definition kept (l l' : list CounterDoc) : Prop :=
  match l with
  | [] => (length l' <= 1)%nat
  | d :: rest => exists d', l' = d' :: rest /\ ctr_id d' = ctr_id d
  end.

Definition no_failures (t : Z) : Env :=
  {| env_connected := true; env_clock := t; env_rands := []; env_faults := [] |}.

Definition save_fails (t : Z) : Env :=
  {| env_connected := true; env_clock := t; env_rands := [];
     env_faults := [None; Some "write concern timeout"] |}.

Definition stale_counter_world : World :=
  set_counters Visitor [{| ctr_id := 7%N; count := 41; lastUpdated := 3 |}]
    (set_faults [Some "timeout"] empty_world).

Definition three_questions : World :=
  set_chatData [chat_with 1%N (Some 3) 10; chat_with 2%N (Some 0) 20; chat_with 3%N (Some 7) 30]
    empty_world.

Definition asked_thrice : World :=
  set_chatData [chat_with 1%N (Some 5) 10;
                chat_with 24912482966938930280208240657%N (Some 3) 20;
                chat_with 3%N None 30]
    empty_world.

(** ** Observations used for the further properties *)

(** The count a [findOne] would read: that of the first document, 0
    when there is none yet. *)
Definition first_count (k : CounterKind) (w : World) : Z :=
  match counters k w with
  | d :: _ => count d
  | [] => 0
  end.

(** What each operation makes of the count. *)
Definition next_count (op : CounterOp) (c : Z) : Z :=
  match op with
  | Get => c
  | Increment => c + 1
  | Reset => 0
  end.

Definition other_kind (k : CounterKind) : CounterKind :=
  match k with Visitor => QuestionRequest | QuestionRequest => Visitor end.

(** Everything stored but the counters of kind [k]. *)
Definition outside (k : CounterKind) (w : World)
  : list CounterDoc * list ChatDoc * list ImageDoc * gmap string Bytes :=
  (counters (other_kind k) w, chatData w, carouselImages w, files w).

(** The document an operation writes back over the one it found. *)
Definition written (op : CounterOp) (d : CounterDoc) (t : Z) : CounterDoc :=
  match op with
  | Get => d
  | Increment | Reset =>
      {| ctr_id := ctr_id d; count := next_count op (count d); lastUpdated := t |}
  end.

(** Operations on one counter, one after the other, the store never
    failing. *)
Definition unfailing (k : CounterKind) (ops : list (Z * CounterOp))
  : list (Env * CounterKind * CounterOp) :=
  map (fun '(t, op) => (no_failures t, k, op)) ops.

(** Two records that the list view cannot tell apart and that sort
    alike. *)
Definition same_in_list (a b : ChatDoc) : Prop :=
  chat_createdAt a = chat_createdAt b /\ list_item a = list_item b.

Fixpoint all_word (s : string) : bool :=
  match s with
  | EmptyString => true
  | String c rest => is_word c && all_word rest
  end.


(** A gallery record whose URL climbs out of the upload directory. *)
Definition dotted_world : World :=
  set_files {[ "index.html" := [Byte.x3c; Byte.x68; Byte.x31; Byte.x3e] ]}
    (set_carouselImages
       [{| img_id := 9%N; img_title := "page"; imageUrl := "/uploads/../index.html";
           img_alt := ""; img_order := 0; img_createdAt := 6 |}]
       empty_world).

Definition disk_full_world : World := set_faults [Some "ENOSPC: no space left on device"] empty_world.

Definition archive_world : World := set_nextId 100%N asked_thrice.

(** * Properties *)

Lemma io_run e w : io_ok 1 w = true -> io e w = (Ok tt, after_io e w).
Proof.
  unfold io_ok, io, after_io. destruct w as [c t rs f n vc qc cd ci fs tr]. simpl.
  destruct f as [|[m|] f]; simpl; intros H; try discriminate; reflexivity.
Qed.

Lemma store_after_io e w : store (after_io e w) = store w.
Proof. unfold after_io. destruct (faults w); reflexivity. Qed.

(** ** The retry loop of the counter routes *)

Lemma emit_trace e w : trace (emit e w) = trace w ++ [e].
Proof. reflexivity. Qed.

Lemma attempts_app k l1 l2 : attempts k (l1 ++ l2) = (attempts k l1 + attempts k l2)%nat.
Proof. unfold attempts. rewrite filter_app, length_app. reflexivity. Qed.

Lemma waits_app l1 l2 : waits (l1 ++ l2) = waits l1 ++ waits l2.
Proof.
  induction l1 as [|e l1 IH]; [reflexivity|].
  destruct e; simpl; rewrite ?IH; reflexivity.
Qed.

Ltac run_attempt :=
  unfold attempt, get_attempt, increment_attempt, reset_attempt, findOne, save_counter,
    new_counter, io, bind, ret, fresh_id, date_now;
  simpl; rewrite ?N.eqb_refl; simpl.

(** An attempt adds to the trace exactly one [findOne] of its
    collection, possibly a [save], and never waits. *)
Lemma attempt_trace k op w :
  exists evs, trace (snd (attempt k op w)) = trace w ++ evs
              /\ attempts k evs = 1%nat /\ waits evs = [].
Proof.
  destruct w as [c t r f n vc qc cd ci fs tr].
  destruct f as [|[m1|] [|[m2|] f]], vc as [|v vc], qc as [|q qc], k, op;
    run_attempt; rewrite <- ?app_assoc;
    eexists; (split; [reflexivity|]); split; reflexivity.
Qed.

Lemma attempt_status k op w r w1 : attempt k op w = (Ok r, w1) -> status r = 200.
Proof.
  destruct w as [c t rs f n vc qc cd ci fs tr].
  destruct f as [|[m1|] [|[m2|] f]], vc as [|v vc], qc as [|q qc], k, op;
    run_attempt; intros E; inversion E; reflexivity.
Qed.

Lemma counter_route_unfold k op w :
  counter_route k op w =
  match attempt k op w with
  | (Ok r, w1) => (Some r, w1)
  | (Throw _, w1) =>
      match attempt k op (snd (sleep 1000 w1)) with
      | (Ok r, w2) => (Some r, w2)
      | (Throw e2, w2) =>
          (Some (counter_failure k op e2),
           emit (EvConsoleError (error_label k op +:+ " " +:+ e2)) w2)
      end
  end.
Proof.
  unfold counter_route. simpl.
  destruct (attempt k op w) as [[r|e1] w1]; [reflexivity|].
  destruct (attempt k op _) as [[r|e2] w2]; reflexivity.
Qed.

(** C1, as amended.  Every counter route (get, increment, reset; visitor,
    question-request) makes at most two attempts: a first attempt that
    succeeds is answered at once; after a first failure the route waits
    1000 ms and tries once more; when that second attempt fails too it
    answers 500 with the text of the route and the detail of the last
    failure.  The trace shows one or two attempts and one wait of 1000 ms
    per retry. *)
Theorem counter_route_retries_once (k : CounterKind) (op : CounterOp) (w : World) :
  match attempt k op w with
  | (Ok r, w1) => counter_route k op w = (Some r, w1) /\ status r = 200
  | (Throw _, w1) =>
      match attempt k op (snd (sleep 1000 w1)) with
      | (Ok r, w2) => counter_route k op w = (Some r, w2) /\ status r = 200
      | (Throw e2, w2) =>
          counter_route k op w =
            (Some (res_status_json 500 [("success", JBool false);
                                        ("error", JStr (error_text k op));
                                        ("details", JStr e2)]),
             emit (EvConsoleError (error_label k op +:+ " " +:+ e2)) w2)
      end
  end
  /\ exists evs,
       trace (snd (counter_route k op w)) = trace w ++ evs
       /\ (1 <= attempts k evs <= 2)%nat
       /\ waits evs = repeat 1000 (attempts k evs - 1).
Proof.
  unfold counter_route. simpl.
  destruct (attempt_trace k op w) as (ev1 & T1 & A1 & W1).
  destruct (attempt k op w) as [[r|e1] w1] eqn:E1; simpl in T1.
  - split; [split; [reflexivity | eapply attempt_status; eassumption]|].
    exists ev1. simpl. rewrite A1, W1. repeat split; auto.
  - set (ws := set_clock (clock w1 + 1000) (emit (EvSleep 1000) w1)).
    assert (Tws : trace ws = trace w ++ ev1 ++ [EvSleep 1000]).
    { unfold ws. simpl. rewrite T1, <- app_assoc. reflexivity. }
    clearbody ws.
    destruct (attempt_trace k op ws) as (ev2 & T2 & A2 & W2).
    destruct (attempt k op ws) as [[r|e2] w2] eqn:E2; simpl in T2.
    + split; [split; [reflexivity | eapply attempt_status; eassumption]|].
      exists (ev1 ++ [EvSleep 1000] ++ ev2). cbn [snd].
      rewrite T2, Tws, <- !app_assoc.
      split; [reflexivity|].
      rewrite !attempts_app, !waits_app, A1, A2, W1, W2.
      destruct k; cbn; repeat split; auto.
    + split; [reflexivity|].
      exists (ev1 ++ [EvSleep 1000] ++ ev2
              ++ [EvConsoleError (error_label k op +:+ " " +:+ e2)]).
      cbn [snd]. rewrite emit_trace, T2, Tws, <- !app_assoc.
      split; [reflexivity|].
      rewrite !attempts_app, !waits_app, A1, A2, W1, W2.
      destruct k; cbn; repeat split; auto.
Qed.

(** C1, as stated, fails: two failures in a row are answered 500 although
    the store would have worked on a third attempt; the routine of the
    specification (three attempts) answers 200 on the same input. *)
Lemma counter_route_no_third_attempt :
  let w := set_faults [Some "timeout"; Some "timeout"] empty_world in
  (status <$> fst (post_api_visitor w)) = Some 500
  /\ attempts Visitor (trace (snd (post_api_visitor w))) = 2%nat
  /\ faults (snd (post_api_visitor w)) = []
  /\ (status <$> fst (spec_counter_route Visitor Increment w)) = Some 200
  /\ attempts Visitor (trace (snd (spec_counter_route Visitor Increment w))) = 3%nat
  /\ fst (post_api_visitor w) <> fst (spec_counter_route Visitor Increment w).
Proof. repeat split; try reflexivity. discriminate. Qed.

(** ** The singleton counter documents *)

Lemma kept_refl l : kept l l.
Proof. destruct l; simpl; [lia | eauto]. Qed.

Lemma kept_trans l1 l2 l3 : kept l1 l2 -> kept l2 l3 -> kept l1 l3.
Proof.
  destruct l1 as [|d rest]; simpl.
  - destruct l2 as [|x [|y l2]]; simpl; intros H12 H23; try lia.
    destruct H23 as (x' & -> & _). simpl. lia.
  - intros (d' & -> & E1) (d'' & -> & E2). exists d''. split; congruence.
Qed.

Lemma attempt_kept k op k' w : kept (counters k' w) (counters k' (snd (attempt k op w))).
Proof.
  destruct w as [c t r f n vc qc cd ci fs tr].
  destruct f as [|[m1|] [|[m2|] f]], vc as [|v vc], qc as [|q qc], k, k', op;
    unfold kept; run_attempt; first [lia | eexists; split; reflexivity | idtac].

Qed.

Lemma counter_route_kept k op k' w :
  kept (counters k' w) (counters k' (snd (counter_route k op w))).
Proof.
  rewrite counter_route_unfold.
  pose proof (attempt_kept k op k' w) as H1.
  destruct (attempt k op w) as [[r|e1] w1]; cbn [snd] in *; [exact H1|].
  pose proof (attempt_kept k op k' (snd (sleep 1000 w1))) as H2.
  assert (Hs : counters k' (snd (sleep 1000 w1)) = counters k' w1) by (destruct k'; reflexivity).
  rewrite Hs in H2.
  destruct (attempt k op (snd (sleep 1000 w1))) as [[r|e2] w2]; cbn [snd] in *.
  - eapply kept_trans; eassumption.
  - replace (counters k' (emit _ w2)) with (counters k' w2) by (destruct k'; reflexivity).
    eapply kept_trans; eassumption.
Qed.

Lemma serve_kept rq k' w : kept (counters k' w) (counters k' (serve rq w)).
Proof.
  destruct rq as [[e k] op]. unfold serve.
  replace (counters k' w) with (counters k' (with_env e w)) by (destruct k'; reflexivity).
  apply counter_route_kept.
Qed.

Lemma serve_all_kept rqs k' w : kept (counters k' w) (counters k' (serve_all rqs w)).
Proof.
  revert w. induction rqs as [|rq rqs IH]; intros w; simpl.
  - apply kept_refl.
  - eapply kept_trans; [apply serve_kept | apply IH].
Qed.

(** A successful attempt on an empty collection leaves exactly one
    document in it. *)
Lemma attempt_creates k op w r w' :
  counters k w = [] -> attempt k op w = (Ok r, w') -> exists d, counters k w' = [d].
Proof.
  destruct w as [c t rs f n vc qc cd ci fs tr].
  destruct f as [|[m1|] [|[m2|] f]], k, op; simpl; intros ->;
    run_attempt; intros E; inversion E; subst; simpl; eauto.
Qed.

Lemma attempt_throw_keeps_empty k op w m w' :
  counters k w = [] -> attempt k op w = (Throw m, w') -> counters k w' = [].
Proof.
  destruct w as [c t rs f n vc qc cd ci fs tr].
  destruct f as [|[m1|] [|[m2|] f]], k, op; simpl; intros ->;
    run_attempt; intros E; inversion E; subst; reflexivity.
Qed.

Lemma attempt_creates_count k op w r w' :
  counters k w = [] -> attempt k op w = (Ok r, w') ->
  exists d, counters k w' = [d] /\ count d = next_count op 0.
Proof.
  destruct w as [c t rs f n vc qc cd ci fs tr].
  destruct f as [|[m1|] [|[m2|] f]], k, op; simpl; intros ->;
    run_attempt; intros E; inversion E; subst; simpl; eauto.
Qed.

Lemma attempt_unfailing k op w :
  faults w = [] ->
  exists r w',
    attempt k op w = (Ok r, w')
    /\ counters k w'
       = match counters k w with
         | [] => [{| ctr_id := nextId w; count := next_count op 0; lastUpdated := clock w |}]
         | d :: rest => written op d (clock w) :: rest
         end.
Proof.
  destruct w as [c t rs f n vc qc cd ci fs tr]. simpl. intros ->.
  destruct vc as [|v vc], qc as [|q qc], k, op; run_attempt;
    try (destruct v); try (destruct q); eauto.
Qed.

Lemma attempt_splits k op : attempt k op = bind (findOne k) (after_findOne k op).
Proof. destruct op; reflexivity. Qed.

(** C2, as amended.  From a state with no counter document of a kind,
    after any sequence of get, increment and reset operations served one
    after the other (on either kind, under any failures of the store):
    the collection of that kind holds at most one document; a document
    that exists is the one every later operation finds and writes back,
    under the same [_id]; an operation that finds none and is answered
    with success has created it, with the count the operation gives;
    and when the store does not fail the operation is answered with
    success, having created the document (if there was none) or written
    its new count over the one it found. *)
Theorem single_counter_document
  (k : CounterKind) (w0 : World) (rqs : list (Env * CounterKind * CounterOp)) :
  counters k w0 = [] ->
  (length (counters k (serve_all rqs w0)) <= 1)%nat
  /\ (forall d rq, counters k (serve_all rqs w0) = [d] ->
                  exists d', counters k (serve rq (serve_all rqs w0)) = [d']
                             /\ ctr_id d' = ctr_id d)
  /\ (forall e op r w',
        counters k (serve_all rqs w0) = [] ->
        counter_route k op (with_env e (serve_all rqs w0)) = (Some r, w') ->
        status r = 200 ->
        exists d, counters k w' = [d] /\ count d = next_count op 0)
  /\ (forall e op,
        env_faults e = [] ->
        exists r w',
          counter_route k op (with_env e (serve_all rqs w0)) = (Some r, w')
          /\ status r = 200
          /\ counters k w'
             = match counters k (serve_all rqs w0) with
               | [] => [{| ctr_id := nextId (serve_all rqs w0); count := next_count op 0;
                           lastUpdated := env_clock e |}]
               | d :: rest => written op d (env_clock e) :: rest
               end).
Proof.
  intros H0. pose proof (serve_all_kept rqs k w0) as K. rewrite H0 in K. simpl in K.
  split; [exact K|]. split; [|split].
  - intros d rq Hd. pose proof (serve_kept rq k (serve_all rqs w0)) as K1.
    rewrite Hd in K1. exact K1.
  - intros e op r w' He. set (w := with_env e (serve_all rqs w0)).
    assert (Hw : counters k w = []) by (destruct k; exact He).
    clearbody w. rewrite counter_route_unfold.
    destruct (attempt k op w) as [[r1|e1] w1] eqn:E1.
    + intros E _. inversion E; subst. eapply attempt_creates_count; eassumption.
    + pose proof (attempt_throw_keeps_empty _ _ _ _ _ Hw E1) as Hw1.
      assert (Hs : counters k (snd (sleep 1000 w1)) = []) by (destruct k; exact Hw1).
      destruct (attempt k op (snd (sleep 1000 w1))) as [[r2|e2] w2] eqn:E2.
      * intros E _. inversion E; subst. eapply attempt_creates_count; eassumption.
      * intros E S. inversion E; subst. discriminate S.
  - intros e op He.
    destruct (attempt_unfailing k op (with_env e (serve_all rqs w0)) He) as (r & w' & A & C).
    exists r, w'. rewrite counter_route_unfold, A.
    split; [reflexivity|]. split; [eapply attempt_status; exact A|].
    rewrite C. destruct k; reflexivity.
Qed.

Lemma single_counter_document_witness :
  let rqs := [(save_fails 5, Visitor, Get); (no_failures 10, Visitor, Increment);
              (no_failures 20, QuestionRequest, Get); (no_failures 30, Visitor, Reset)] in
  counters Visitor empty_world = []
  /\ exists r w',
       counter_route Visitor Increment (with_env (no_failures 40) (serve_all rqs empty_world))
       = (Some r, w')
       /\ status r = 200
       /\ counters Visitor w' = [{| ctr_id := 2%N; count := 1; lastUpdated := 40 |}].
Proof.
  intros rqs. split; [reflexivity|].
  destruct (single_counter_document Visitor empty_world rqs eq_refl) as (_ & _ & _ & T).
  destruct (T (no_failures 40) Increment eq_refl) as (r & w' & R & S & C).
  exists r, w'. split; [exact R|]. split; [exact S|]. rewrite C. reflexivity.
Defined.

(** C2, as stated, fails for requests that overlap: two first gets whose
    [findOne] calls are both answered before either handler resumes
    both find no document and both save a new one; each is answered 200
    with count 0 and the collection holds two documents.  (The steps are
    the handler's own: an attempt is its [findOne] followed by
    [after_findOne].) *)
Lemma overlapping_gets_create_two :
  counters Visitor empty_world = []
  /\ attempt Visitor Get = bind (findOne Visitor) (after_findOne Visitor Get)
  /\ (exists r1 r2, fst (overlapping Visitor Get Get empty_world) = Ok (r1, r2)
                    /\ status r1 = 200 /\ status r2 = 200)
  /\ length (counters Visitor (snd (overlapping Visitor Get Get empty_world))) = 2%nat
  /\ ~ (length (counters Visitor (snd (overlapping Visitor Get Get empty_world))) <= 1)%nat.
Proof.
  split; [reflexivity|]. split; [reflexivity|].
  split; [do 2 eexists; split; [reflexivity | split; reflexivity]|].
  split; [reflexivity|]. vm_compute. intros H.
  apply Nat.leb_le in H. discriminate H.
Qed.

(** ** Reset, then get *)

Lemma reset_attempt_zero k w r w' :
  attempt k Reset w = (Ok r, w') ->
  exists d rest, counters k w' = d :: rest /\ count d = 0.
Proof.
  destruct w as [c t rs f n vc qc cd ci fs tr].
  destruct f as [|[m1|] [|[m2|] f]], vc as [|v vc], qc as [|q qc], k;
    run_attempt; intros E; inversion E; subst; simpl; eauto.
Qed.

Lemma get_attempt_reads k w d rest :
  counters k w = d :: rest ->
  match attempt k Get w with
  | (Ok r, w') => field "count" r = Some (JNum (count d)) /\ counters k w' = d :: rest
  | (Throw _, w') => counters k w' = d :: rest
  end.
Proof.
  destruct w as [c t rs f n vc qc cd ci fs tr].
  destruct f as [|[m1|] f], k; simpl; intros ->; run_attempt; auto.
Qed.

Lemma counter_route_ok_cases k op w r w' :
  counter_route k op w = (Some r, w') -> status r = 200 ->
  attempt k op w = (Ok r, w')
  \/ exists m w1, attempt k op w = (Throw m, w1)
                  /\ attempt k op (snd (sleep 1000 w1)) = (Ok r, w').
Proof.
  rewrite counter_route_unfold.
  destruct (attempt k op w) as [[r1|e1] w1].
  - intros E _. inversion E. auto.
  - destruct (attempt k op (snd (sleep 1000 w1))) as [[r2|e2] w2] eqn:E2.
    + intros E _. inversion E; subst. right. eauto.
    + intros E S. inversion E; subst. discriminate S.
Qed.

Lemma attempt_succeeds k op w :
  faults w = [] -> exists r w', attempt k op w = (Ok r, w').
Proof.
  destruct w as [c t rs f n vc qc cd ci fs tr]. simpl. intros ->.
  destruct vc as [|v vc], qc as [|q qc], k, op; run_attempt; eauto.
Qed.

(** C8.  For either counter kind and any starting state: when a reset
    has been answered with success and the get that follows it (nothing
    in between but the passing of time) is answered with success, the
    count in the answer of the get is 0; and when the store does not
    fail, both are answered with success. *)
Theorem reset_then_get_is_zero (k : CounterKind) (w : World) (e : Env) :
  (forall r1 w1 r2 w2,
     counter_route k Reset w = (Some r1, w1) -> status r1 = 200 ->
     counter_route k Get (with_env e w1) = (Some r2, w2) -> status r2 = 200 ->
     field "count" r2 = Some (JNum 0))
  /\ (faults w = [] -> env_faults e = [] ->
      exists r1 w1 r2 w2,
        counter_route k Reset w = (Some r1, w1) /\ status r1 = 200
        /\ counter_route k Get (with_env e w1) = (Some r2, w2) /\ status r2 = 200
        /\ field "count" r2 = Some (JNum 0)).
Proof.
  assert (Main : forall r1 w1 r2 w2,
     counter_route k Reset w = (Some r1, w1) -> status r1 = 200 ->
     counter_route k Get (with_env e w1) = (Some r2, w2) -> status r2 = 200 ->
     field "count" r2 = Some (JNum 0)).
  { intros r1 w1 r2 w2 R1 S1 R2 S2.
    assert (Z1 : exists d rest, counters k w1 = d :: rest /\ count d = 0).
    { destruct (counter_route_ok_cases _ _ _ _ _ R1 S1) as [A | (m & wm & _ & A)];
        eapply reset_attempt_zero; eassumption. }
    destruct Z1 as (d & rest & Hd & Hc).
    assert (He : counters k (with_env e w1) = d :: rest) by (destruct k; exact Hd).
    pose proof (get_attempt_reads k _ d rest He) as G1.
    destruct (counter_route_ok_cases _ _ _ _ _ R2 S2) as [A | (m & wm & A1 & A2)].
    - rewrite A in G1. destruct G1 as [G1 _]. rewrite G1, Hc. reflexivity.
    - rewrite A1 in G1.
      assert (Hs : counters k (snd (sleep 1000 wm)) = d :: rest) by (destruct k; exact G1).
      pose proof (get_attempt_reads k _ d rest Hs) as G2.
      rewrite A2 in G2. destruct G2 as [G2 _]. rewrite G2, Hc. reflexivity. }
  split; [exact Main|].
  intros Hw He.
  destruct (attempt_succeeds k Reset w Hw) as (r1 & w1 & A1).
  destruct (attempt_succeeds k Get (with_env e w1) He) as (r2 & w2 & A2).
  assert (R1 : counter_route k Reset w = (Some r1, w1))
    by (rewrite counter_route_unfold, A1; reflexivity).
  assert (R2 : counter_route k Get (with_env e w1) = (Some r2, w2))
    by (rewrite counter_route_unfold, A2; reflexivity).
  pose proof (attempt_status _ _ _ _ _ A1) as S1.
  pose proof (attempt_status _ _ _ _ _ A2) as S2.
  exists r1, w1, r2, w2. repeat split; try assumption.
  exact (Main r1 w1 r2 w2 R1 S1 R2 S2).
Qed.

Lemma reset_then_get_is_zero_witness :
  exists r1 w1 r2 w2,
    counter_route Visitor Reset stale_counter_world = (Some r1, w1) /\ status r1 = 200
    /\ counter_route Visitor Get (with_env (no_failures 9) w1) = (Some r2, w2)
    /\ status r2 = 200
    /\ field "count" r2 = Some (JNum 0).
Proof.
  do 4 eexists.
  split; [reflexivity|]. split; [reflexivity|]. split; [reflexivity|]. split; [reflexivity|].
  eapply (proj1 (reset_then_get_is_zero Visitor stale_counter_world (no_failures 9)));
    reflexivity.
Defined.

(** ** The total of the question counts *)

Lemma or_number_default q : or_number q 0 = default 0 q.
Proof.
  destruct q as [n|]; simpl; [|reflexivity].
  destruct (Z.eqb_spec n 0) as [->|_]; reflexivity.
Qed.

Lemma fold_left_questionCount l acc :
  fold_left (fun sum q => sum + or_number (questionCount q) 0) l acc
  = acc + sum_questionCount l.
Proof.
  revert acc. induction l as [|q l IH]; intros acc; simpl.
  - unfold sum_questionCount. simpl. lia.
  - rewrite IH, or_number_default. unfold sum_questionCount. simpl. lia.
Qed.

Lemma reduce_questionCount_sum l : reduce_questionCount l = sum_questionCount l.
Proof. unfold reduce_questionCount. rewrite fold_left_questionCount. lia. Qed.

Lemma total_count_run (w : World) :
  io_ok 1 w = true ->
  fst (get_api_questions_total_count w) =
    Some (res_json [("success", JBool true);
                    ("totalCount", JNum (sum_questionCount (chatData w)));
                    ("totalQuestions", JNum (Z.of_nat (length (chatData w))))]).
Proof.
  destruct w as [c t rs f n vc qc cd ci fs tr].
  unfold io_ok, get_api_questions_total_count, respond, try_catch, find_chat, bind, io, ret.
  destruct f as [|[m|] f]; simpl; intros H; try discriminate;
    rewrite reduce_questionCount_sum; reflexivity.
Qed.

(** C6.  When the query is answered, the route returns as [totalCount]
    the sum of [questionCount] over all the records, a missing
    [questionCount] counting for 0, and as [totalQuestions] the number of
    records; over records whose counts are 3, 0 and 7 these are 10 and
    3. *)
Theorem total_question_count (w : World) :
  io_ok 1 w = true ->
  fst (get_api_questions_total_count w) =
    Some {| status := 200;
            body := Json (JObj [("success", JBool true);
                                ("totalCount", JNum (sum_questionCount (chatData w)));
                                ("totalQuestions", JNum (Z.of_nat (length (chatData w))))]) |}
  /\ (map questionCount (chatData w) = [Some 3; Some 0; Some 7] ->
      exists r, fst (get_api_questions_total_count w) = Some r
                /\ field "totalCount" r = Some (JNum 10)
                /\ field "totalQuestions" r = Some (JNum 3)).
Proof.
  intros H. split; [apply total_count_run; exact H|].
  intros Hq. eexists. split; [apply total_count_run; exact H|].
  assert (L : length (chatData w) = 3%nat).
  { rewrite <- (length_map questionCount), Hq. reflexivity. }
  unfold field, res_json, sum_questionCount. simpl.
  rewrite <- (map_map questionCount (default 0)), Hq, L. split; reflexivity.
Qed.

Lemma total_question_count_witness :
  io_ok 1 three_questions = true
  /\ exists r, fst (get_api_questions_total_count three_questions) = Some r
               /\ field "totalCount" r = Some (JNum 10)
               /\ field "totalQuestions" r = Some (JNum 3).
Proof.
  split; [reflexivity|].
  apply (total_question_count three_questions); reflexivity.
Defined.

(** ** Listing the chat records *)

Section SortFacts.
Context {A : Type} (le : A -> A -> bool).
Hypothesis le_total : forall a b, le a b = true \/ le b a = true.
Hypothesis le_trans : forall a b c, le a b = true -> le b c = true -> le a c = true.

Lemma insert_sorted_perm x l : Permutation (insert_sorted le x l) (x :: l).
Proof.
  induction l as [|y l IH]; simpl; [reflexivity|].
  destruct (le x y); [reflexivity|].
  rewrite IH. apply perm_swap.
Qed.

Lemma sort_by_perm l : Permutation (sort_by le l) l.
Proof.
  induction l as [|x l IH]; simpl; [reflexivity|].
  rewrite insert_sorted_perm, IH. reflexivity.
Qed.

Lemma insert_sorted_sorted x l :
  StronglySorted (fun a b => le a b = true) l ->
  StronglySorted (fun a b => le a b = true) (insert_sorted le x l).
Proof.
  induction 1 as [|y l Hs IH Hy]; simpl.
  - repeat constructor.
  - destruct (le x y) eqn:E.
    + constructor; [constructor; assumption|].
      constructor; [exact E|].
      eapply Forall_impl; [exact Hy|]. intros z Hz. simpl in Hz. eauto.
    + constructor; [exact IH|].
      eapply Permutation_Forall; [symmetry; apply insert_sorted_perm|].
      constructor; [|exact Hy].
      destruct (le_total x y) as [F|T]; [congruence | exact T].
Qed.

Lemma sort_by_sorted l : StronglySorted (fun a b => le a b = true) (sort_by le l).
Proof.
  induction l as [|x l IH]; simpl; [constructor|].
  apply insert_sorted_sorted, IH.
Qed.
End SortFacts.

Lemma newest_first_sorted l :
  StronglySorted (fun a b => chat_createdAt b <= chat_createdAt a) (sort_by newer_first l).
Proof.
  assert (S : StronglySorted (fun a b => newer_first a b = true) (sort_by newer_first l)).
  { apply sort_by_sorted; unfold newer_first; intros; lia. }
  induction S as [|d rest S IH F]; constructor; [exact IH|].
  eapply Forall_impl; [exact F|]. unfold newer_first. intros b Hb. simpl in Hb. lia.
Qed.

Lemma get_api_data_run (w : World) :
  io_ok 1 w = true ->
  get_api_data w =
    (Some (res_json_array (map list_item (sort_by newer_first (chatData w)))),
     match faults w with
     | [] => emit (EvFind CChatData) w
     | _ :: rest => set_faults rest (emit (EvFind CChatData) w)
     end).
Proof.
  destruct w as [c t rs f n vc qc cd ci fs tr].
  unfold io_ok, get_api_data, respond, try_catch, find_chat_newest_first, bind, io, ret.
  destruct f as [|[m|] f]; simpl; intros H; try discriminate; reflexivity.
Qed.

(** C9.  When the query is answered, the list route returns the whole
    collection (every record once, none left out), newest first by
    creation time, each item being the object with exactly the fields
    [id] (the record's [_id]), [title], [content] and [date]; neither
    [questionCount] nor [createdAt] appears, and nothing stored changes. *)
Theorem list_all_newest_first (w : World) :
  io_ok 1 w = true ->
  exists docs,
    fst (get_api_data w) =
      Some {| status := 200;
              body := Json (JArr (map (fun d => JObj [("id", JOid (chat_id d));
                                                       ("title", JStr (chat_title d));
                                                       ("content", JStr (chat_content d));
                                                       ("date", JStr (chat_date d))])
                                      docs)) |}
    /\ Permutation docs (chatData w)
    /\ length docs = length (chatData w)
    /\ StronglySorted (fun a b => chat_createdAt b <= chat_createdAt a) docs
    /\ store (snd (get_api_data w)) = store w.
Proof.
  intros H. exists (sort_by newer_first (chatData w)).
  rewrite (get_api_data_run w H).
  split; [reflexivity|].
  split; [apply sort_by_perm|].
  split; [apply Permutation_length, sort_by_perm|].
  split; [apply newest_first_sorted|].
  destruct (faults w); reflexivity.
Qed.

Lemma list_all_newest_first_witness :
  io_ok 1 three_questions = true
  /\ exists docs,
       fst (get_api_data three_questions) =
         Some (res_json_array (map list_item docs))
       /\ Permutation docs (chatData three_questions)
       /\ length docs = length (chatData three_questions)
       /\ StronglySorted (fun a b => chat_createdAt b <= chat_createdAt a) docs
       /\ store (snd (get_api_data three_questions)) = store three_questions.
Proof.
  split; [reflexivity|].
  apply (list_all_newest_first three_questions). reflexivity.
Defined.

Example list_all_three :
  fst (get_api_data three_questions) =
    Some (res_json_array (map list_item [chat_with 3%N (Some 7) 30; chat_with 2%N (Some 0) 20;
                                         chat_with 1%N (Some 3) 10])).
Proof. reflexivity. Qed.

(** ** Incrementing the count of one question *)

Lemma update_by_id_absent i l :
  Forall (fun d => chat_id d <> i) l -> update_by_id i l = None.
Proof.
  induction 1 as [|d l Hd _ IH]; simpl; [reflexivity|].
  destruct (N.eqb_spec (chat_id d) i); [contradiction|]. rewrite IH. reflexivity.
Qed.

Lemma update_by_id_present i l1 d l2 :
  chat_id d = i -> Forall (fun x => chat_id x <> i) l1 ->
  update_by_id i (l1 ++ d :: l2) = Some (inc_questionCount d, l1 ++ inc_questionCount d :: l2).
Proof.
  intros Hd. induction 1 as [|x l1 Hx _ IH]; simpl.
  - rewrite Hd, N.eqb_refl. reflexivity.
  - destruct (N.eqb_spec (chat_id x) i); [contradiction|]. rewrite IH. reflexivity.
Qed.

Lemma increment_run `{Platform} (id : string) (i : ObjectId) (w : World) :
  castObjectId id = Some i -> io_ok 1 w = true ->
  post_api_data_increment id w =
    match update_by_id i (chatData w) with
    | Some (d', l') =>
        (Some (res_json [("success", JBool true);
                         ("id", JOid (chat_id d'));
                         ("title", JStr (chat_title d'));
                         ("questionCount", json_of_count (questionCount d'))]),
         set_chatData l' (after_io (EvFindByIdAndUpdate CChatData) w))
    | None =>
        (Some (res_status_json 404 [("error", JStr "Question not found")]),
         after_io (EvFindByIdAndUpdate CChatData) w)
    end.
Proof.
  intros Hc Hio.
  unfold post_api_data_increment, respond, try_catch, findByIdAndUpdate, bind.
  rewrite Hc, (io_run _ w Hio).
  replace (chatData (after_io (EvFindByIdAndUpdate CChatData) w)) with (chatData w)
    by (unfold after_io; destruct (faults w); reflexivity).
  destruct (update_by_id i (chatData w)) as [[d' l']|]; reflexivity.
Qed.

(** C4, as amended.  With the store answering: an id that the driver
    cannot cast to an ObjectId is answered 500 and nothing stored
    changes; an id that casts and matches no record is answered 404
    (Question not found) and nothing stored changes; an id that matches
    a record raises that record's [questionCount] by exactly 1 (from 0
    when it was missing), leaves its [_id], [title], [content], [date]
    and [createdAt] and every other record as they were, and the answer
    carries the [id], the [title] and the new [questionCount] of the
    updated record. *)
Theorem increment_question `{Platform} (id : string) (w : World) :
  io_ok 1 w = true ->
  match castObjectId id with
  | None =>
      fst (post_api_data_increment id w)
      = Some (res_status_json 500 [("error", JStr (cast_error id "ChatData"))])
      /\ snd (post_api_data_increment id w) = w
  | Some i =>
      (Forall (fun d => chat_id d <> i) (chatData w) ->
       fst (post_api_data_increment id w)
       = Some (res_status_json 404 [("error", JStr "Question not found")])
       /\ store (snd (post_api_data_increment id w)) = store w)
      /\ (forall l1 d l2,
            chatData w = l1 ++ d :: l2 -> chat_id d = i ->
            Forall (fun x => chat_id x <> i) l1 ->
            let n := default 0 (questionCount d) + 1 in
            fst (post_api_data_increment id w)
            = Some (res_json [("success", JBool true);
                              ("id", JOid (chat_id d));
                              ("title", JStr (chat_title d));
                              ("questionCount", JNum n)])
            /\ store (snd (post_api_data_increment id w))
               = (visitorCounters w, questionRequestCounters w,
                  l1 ++ {| chat_id := chat_id d; chat_title := chat_title d;
                           chat_content := chat_content d; chat_date := chat_date d;
                           questionCount := Some n;
                           chat_createdAt := chat_createdAt d |} :: l2,
                  carouselImages w, files w))
  end.
Proof.
  intros Hio. destruct (castObjectId id) as [i|] eqn:Hc.
  - split.
    + intros Habs. rewrite (increment_run id i w Hc Hio), (update_by_id_absent _ _ Habs).
      split; [reflexivity | apply store_after_io].
    + intros l1 d l2 Hl Hd Hl1 n.
      rewrite (increment_run id i w Hc Hio), Hl, (update_by_id_present _ _ _ _ Hd Hl1).
      split; [reflexivity|].
      unfold after_io. destruct (faults w); reflexivity.
  - unfold post_api_data_increment, respond, try_catch, findByIdAndUpdate, bind, throw, ret.
    rewrite Hc. split; reflexivity.
Qed.

Lemma increment_question_witness :
  io_ok 1 asked_thrice = true
  /\ fst (@post_api_data_increment node "507f1f77bcf86cd799439011" asked_thrice)
     = Some (res_json [("success", JBool true);
                       ("id", JOid 24912482966938930280208240657%N);
                       ("title", JStr "q");
                       ("questionCount", JNum 4)]).
Proof.
  split; [reflexivity|].
  pose proof (@increment_question node "507f1f77bcf86cd799439011" asked_thrice eq_refl) as T.
  cbv beta iota in T. change (@castObjectId node "507f1f77bcf86cd799439011")
    with (Some 24912482966938930280208240657%N) in T.
  destruct T as [_ T].
  apply (T [chat_with 1%N (Some 5) 10] (chat_with 24912482966938930280208240657%N (Some 3) 20)
           [chat_with 3%N None 30]).
  - reflexivity.
  - reflexivity.
  - repeat constructor. discriminate.
Defined.

(** C4, as stated, fails: an id that matches no record is answered 500,
    not 404, when it does not have the form of an ObjectId. *)
Lemma increment_malformed_id_is_500 :
  chatData empty_world = []
  /\ fst (@post_api_data_increment node "abc" empty_world)
     = Some (res_status_json 500 [("error", JStr (cast_error "abc" "ChatData"))])
  /\ (status <$> fst (@post_api_data_increment node "abc" empty_world)) <> Some 404.
Proof. split; [reflexivity|]. split; [reflexivity | discriminate]. Qed.

(** ** The check of the database connection *)

(** C7, as amended.  While the connection is not ready, every request
    that the middlewares registered before the check pass on (CORS, the
    two body parsers, the two static-file middlewares, whatever they
    are) is answered 503 with the fixed body, and the world is left as
    it was: no route runs, no call to the store, no file access.  With
    the middlewares of the instance, that is the case of every POST, PUT
    and DELETE request whose body the parsers accept. *)
Theorem not_ready_is_503 `{Platform} `{Framework} (req : Request) (w : World) :
  isMongoReady w = false ->
  (front req w = None ->
   app req w =
     (Some {| status := 503;
              body := Json (JObj [("success", JBool false);
                                  ("error", JStr "Database not connected");
                                  ("message", JStr "Please try again in a few moments")]) |},
      w))
  /\ (req_payload req = Accepted ->
      req_method req = POST \/ req_method req = PUT \/ req_method req = DELETE ->
      @front express req w = None).
Proof.
  intros Hr. split.
  - intros Hf. unfold app. rewrite Hf, Hr. reflexivity.
  - intros Hp Hm. unfold front. simpl. unfold cors, body_parser, express_static.
    rewrite Hp.
    destruct Hm as [-> | [-> | ->]]; simpl; destruct (req_path req) as [|first rest];
      try reflexivity; destruct (String.eqb first uploadDir); reflexivity.
Qed.

Lemma not_ready_is_503_witness :
  isMongoReady offline_world = false
  /\ @front express (request POST ["api"; "visitor"]) offline_world = None
  /\ @app node express (request POST ["api"; "visitor"]) offline_world
     = (Some service_unavailable, offline_world).
Proof.
  split; [reflexivity|].
  destruct (@not_ready_is_503 node express (request POST ["api"; "visitor"]) offline_world
              eq_refl) as [T P].
  assert (F : @front express (request POST ["api"; "visitor"]) offline_world = None)
    by (apply P; [reflexivity | left; reflexivity]).
  split; [exact F | exact (T F)].
Defined.

(** C7, as stated, fails: with the connection down, a GET of [/] (a
    route of the application) is answered 200 with the front page by the
    static middleware, which is registered before the check. *)
Lemma front_page_served_while_not_ready :
  isMongoReady offline_world = false
  /\ fst (@app node express (request GET []) offline_world)
     = Some {| status := 200; body := FileBody [Byte.x3c; Byte.x68; Byte.x31; Byte.x3e] |}
  /\ (status <$> fst (@app node express (request GET []) offline_world)) <> Some 503
  /\ trace (snd (@app node express (request GET []) offline_world)) = [EvReadFile "index.html"].
Proof.
  split; [reflexivity|]. split; [vm_compute; reflexivity|].
  split; [vm_compute; discriminate | vm_compute; reflexivity].
Qed.

(** ** Uploads *)

Lemma fileFilter_rejects (file : FilePart) :
  ~ In (mimetype file) allowedMimes -> fileFilter file = Throw "Only image files are allowed".
Proof.
  intros Hn. unfold fileFilter.
  destruct (existsb (String.eqb (mimetype file)) allowedMimes) eqn:E; [|reflexivity].
  apply existsb_exists in E. destruct E as (x & Hx & Heq).
  apply String.eqb_eq in Heq. subst x. contradiction.
Qed.

Lemma fileFilter_accepts (file : FilePart) :
  In (mimetype file) allowedMimes -> fileFilter file = Ok true.
Proof.
  intros Hi. unfold fileFilter.
  replace (existsb (String.eqb (mimetype file)) allowedMimes) with true; [reflexivity|].
  symmetry. apply existsb_exists. exists (mimetype file). split; [exact Hi | apply String.eqb_refl].
Qed.

(** The filter of the multipart route.  A file part whose declared mime
    type is not one of image/jpeg, image/png, image/gif and image/webp
    is refused by the upload middleware before the handler of the route
    runs: the world is left exactly as it was (no file written, no
    gallery record, no call at all) and the answer is the framework's to
    the error it was handed, a 500. *)
Lemma unsupported_mime_rejected `{Platform} (file : FilePart) (b : ReqBody) (w : World) :
  ~ In (mimetype file) allowedMimes ->
  exists message,
    upload_route (Some file) b w = (Some {| status := 500; body := ErrorPage message |}, w)
    /\ (fieldname file = "image" -> message = "Only image files are allowed").
Proof.
  intros Hn. unfold upload_route, upload_single.
  destruct (String.eqb (fieldname file) "image") eqn:E; simpl.
  - rewrite (fileFilter_rejects file Hn). eexists. split; reflexivity.
  - eexists. split; [reflexivity|]. intros Hf. rewrite Hf in E. discriminate E.
Qed.

Lemma unsupported_mime_rejected_witness :
  ~ In (mimetype pdf_part) allowedMimes
  /\ exists message,
       @upload_route node (Some pdf_part) no_body empty_world
       = (Some {| status := 500; body := ErrorPage message |}, empty_world)
       /\ (fieldname pdf_part = "image" -> message = "Only image files are allowed").
Proof.
  assert (Hn : ~ In (mimetype pdf_part) allowedMimes).
  { simpl. intros [E|[E|[E|[E|[]]]]]; discriminate E. }
  split; [exact Hn|].
  apply (@unsupported_mime_rejected node pdf_part no_body empty_world Hn).
Defined.

(** C3.  The code at the failing input: a PDF sent as the [image] part
    of a multipart upload is refused before anything is written or
    recorded, as the claim says, but the refusal is answered with the
    framework's 500 error page, not with a 400: the error that the
    filter raises never reaches the [catch] of the handler, the place
    where this route (like the base64 one) answers 400. *)
Lemma pdf_upload_is_500 :
  ~ In (mimetype pdf_part) allowedMimes
  /\ @upload_route node (Some pdf_part) no_body empty_world
     = (Some {| status := 500; body := ErrorPage "Only image files are allowed" |}, empty_world)
  /\ @app node express (upload_request pdf_part) empty_world
     = (Some {| status := 500; body := ErrorPage "Only image files are allowed" |}, empty_world)
  /\ (status <$> fst (@app node express (upload_request pdf_part) empty_world)) <> Some 400.
Proof.
  split; [simpl; intros [E|[E|[E|[E|[]]]]]; discriminate E|].
  split; [reflexivity|].
  split; [vm_compute; reflexivity | vm_compute; discriminate].
Qed.

Lemma required_or_string v d :
  d <> "" -> required (Some (or_string v d)) = Some (or_string v d).
Proof.
  intros Hd. unfold required, or_string.
  destruct v as [s|].
  - destruct (String.eqb_spec s "") as [->|Hs].
    + destruct (String.eqb_spec d ""); [contradiction | reflexivity].
    + destruct (String.eqb_spec s ""); [contradiction | reflexivity].
  - destruct (String.eqb_spec d ""); [contradiction | reflexivity].
Qed.

Lemma create_image_rejected t u a o w e rest :
  required (Some t) = Some t -> required (Some u) = Some u ->
  faults w = Some e :: rest ->
  create_image (Some t) (Some u) a o w
  = (Throw e, set_faults rest (emit (EvSave CCarouselImage)
                                 (set_nextId (N.succ (nextId w)) w))).
Proof.
  intros Ht Hu Hf.
  unfold create_image, image_validation, bind, fresh_id, date_now, io.
  rewrite Ht, Hu. simpl. rewrite Hf. reflexivity.
Qed.

Lemma create_image_saved t u a o w :
  required (Some t) = Some t -> required (Some u) = Some u ->
  io_ok 1 w = true ->
  let newImage := {| img_id := nextId w; img_title := t; imageUrl := u;
                     img_alt := default "" a; img_order := o; img_createdAt := clock w |} in
  create_image (Some t) (Some u) a o w
  = (Ok newImage,
     set_carouselImages (carouselImages w ++ [newImage])
       (after_io (EvSave CCarouselImage) (set_nextId (N.succ (nextId w)) w))).
Proof.
  intros Ht Hu Hio.
  unfold create_image, image_validation, bind, fresh_id, date_now.
  rewrite Ht, Hu. simpl.
  rewrite io_run by exact Hio.
  unfold after_io. simpl. destruct (faults w); reflexivity.
Qed.

Local Opaque string_of_Z.

Lemma upload_single_writes `{Platform} (file : FilePart) (w : World) rest :
  fieldname file = "image" -> In (mimetype file) allowedMimes ->
  faults w = None :: rest ->
  let name := upload_name file w in
  upload_single "image" (Some file) w
  = (Ok (Some {| filename := name; file_path := in_uploadDir name |}),
     set_files (<[in_uploadDir name := content file]> (files w))
       (set_faults rest (emit (EvWriteFile (in_uploadDir name))
                           (set_rands (tail (rands w)) w)))).
Proof.
  intros Hf Hm Hfl. unfold upload_single, upload_name, next_random.
  rewrite Hf, (fileFilter_accepts file Hm). simpl.
  unfold storage_filename, writeFile, bind, date_now, random_1e9, io, ret.
  destruct w as [c t rs f n vc qc cd ci fs tr]. simpl in *. subst f.
  destruct rs as [|r rs]; reflexivity.
Qed.

(** C5.  When the write of the file succeeds and the creation of the
    gallery record then fails: the multipart route unlinks the file it
    has just written (whatever the outcome of the unlink, which is
    ignored) and answers 400 with the failure; so, the unlink done, no
    file is left under that name; the base64 route answers 400 too but
    calls no unlink, and the file it wrote stays.  Neither route leaves
    a gallery record. *)
Theorem record_failure_cleanup `{Platform}
  (b : ReqBody) (w : World) (e : string) (rest : list (option string)) :
  faults w = None :: Some e :: rest ->
  (forall file, fieldname file = "image" -> In (mimetype file) allowedMimes ->
     let path := in_uploadDir (upload_name file w) in
     let out := upload_route (Some file) b w in
     fst out = Some {| status := 400; body := Json (JObj [("error", JStr e)]) |}
     /\ carouselImages (snd out) = carouselImages w
     /\ trace (snd out) = trace w ++ [EvWriteFile path; EvSave CCarouselImage; EvUnlink path]
     /\ match rest with
        | Some _ :: _ => files (snd out) = <[path := content file]> (files w)
        | _ => files (snd out) = delete path (files w) /\ files (snd out) !! path = None
        end)
  /\ (forall imageData, required (b_imageData b) = Some imageData ->
      let path := in_uploadDir (base64_name w) in
      let out := post_api_carousel_upload_base64 b w in
      fst out = Some {| status := 400; body := Json (JObj [("error", JStr e)]) |}
      /\ carouselImages (snd out) = carouselImages w
      /\ trace (snd out) = trace w ++ [EvWriteFile path; EvSave CCarouselImage]
      /\ files (snd out) = <[path := buffer_from_base64 (strip_data_prefix imageData)]> (files w)
      /\ files (snd out) !! path = Some (buffer_from_base64 (strip_data_prefix imageData))).
Proof.
  intros Hfl. split.
  - intros file Hf Hm path out. subst out.
    unfold upload_route.
    rewrite (upload_single_writes file w _ Hf Hm Hfl). fold path.
    unfold post_api_carousel_upload, respond, try_catch, bind.
    erewrite create_image_rejected;
      [| apply required_or_string; discriminate | reflexivity | reflexivity].
    unfold unlink_ignoring_errors, try_catch, unlink, bind, io, ret.
    destruct w as [c t rs f n vc qc cd ci fs tr]. simpl in *.
    destruct rest as [|[m|] rest']; simpl; rewrite ?lookup_insert_eq; simpl;
      rewrite <- ?app_assoc, ?delete_insert_eq, ?lookup_delete_eq; repeat split; reflexivity.
  - intros imageData Hi path out. subst out.
    unfold post_api_carousel_upload_base64, respond, try_catch, bind. rewrite Hi.
    unfold date_now, random_1e9, writeFile, bind, io.
    destruct w as [c t rs f n vc qc cd ci fs tr]. simpl in *. subst f.
    assert (R : forall t', required (Some (or_string t' "Untitled"))
                           = Some (or_string t' "Untitled"))
      by (intros; apply required_or_string; discriminate).
    destruct rs as [|r rs]; simpl;
      (erewrite create_image_rejected; [| apply R | reflexivity | reflexivity]);
      simpl; rewrite <- ?app_assoc, ?lookup_insert_eq; repeat split; reflexivity.
Qed.

Local Transparent string_of_Z.

Lemma record_failure_cleanup_witness :
  faults save_rejected_world = [None; Some "E11000 duplicate key"]
  /\ files (snd (@upload_route node (Some png_part) (base64_body "aGVsbG8=") save_rejected_world))
     !! "uploads/1700000000000-42.png" = None
  /\ files (snd (@post_api_carousel_upload_base64 node (base64_body "aGVsbG8=")
                   save_rejected_world))
     !! "uploads/base64-1700000000000-42.png"
     = Some [Byte.x68; Byte.x65; Byte.x6c; Byte.x6c; Byte.x6f].
Proof.
  split; [reflexivity|].
  destruct (@record_failure_cleanup node (base64_body "aGVsbG8=") save_rejected_world
              "E11000 duplicate key" [] eq_refl) as [U B].
  split.
  - destruct (U png_part eq_refl) as (_ & _ & _ & _ & L).
    + simpl. auto.
    + exact L.
  - destruct (B "aGVsbG8=" eq_refl) as (_ & _ & _ & _ & L). exact L.
Defined.

Local Opaque string_of_Z.

Lemma required_nonempty (v : option string) (s : string) :
  v = Some s -> s <> "" -> required v = Some s.
Proof.
  intros -> Hs. unfold required. destruct (String.eqb_spec s ""); [contradiction | reflexivity].
Qed.

Lemma append_assoc (a b c : string) : (a +:+ b) +:+ c = a +:+ (b +:+ c).
Proof.
  induction a as [|x a IH]; [reflexivity|].
  change (String x ((a +:+ b) +:+ c) = String x (a +:+ (b +:+ c))).
  rewrite IH. reflexivity.
Qed.


Local Transparent string_of_Z.


Example base64_upload_pdf_file :
  files (snd (@post_api_carousel_upload_base64 node
                (base64_body "data:application/pdf;base64,JVBERi0=") empty_world))
  !! "uploads/base64-1700000000000-0.png"
  = Some (base64_decode "data:application/pdf;base64,JVBERi0=").
Proof. vm_compute. reflexivity. Qed.

(** * Further properties of the routes *)

(** ** Counters: what an answer means for the stored count *)

Lemma attempt_effect k op w :
  match attempt k op w with
  | (Ok r, w') =>
      first_count k w' = next_count op (first_count k w)
      /\ field "count" r = Some (JNum (next_count op (first_count k w)))
      /\ tail (counters k w') = tail (counters k w)
      /\ outside k w' = outside k w
  | (Throw _, w') => store w' = store w
  end.
Proof.
  destruct w as [c t rs f n vc qc cd ci fs tr].
  destruct f as [|[m1|] [|[m2|] f]], vc as [|v vc], qc as [|q qc], k, op;
    run_attempt; repeat split; reflexivity.
Qed.

Lemma store_sleep ms w : store (snd (sleep ms w)) = store w.
Proof. reflexivity. Qed.

Lemma first_count_store k w w' : store w' = store w -> first_count k w' = first_count k w.
Proof.
  unfold store, first_count, counters. intros E. injection E as E1 E2 E3 E4 E5.
  destruct k; rewrite ?E1, ?E2; reflexivity.
Qed.

Lemma counters_store k w w' : store w' = store w -> counters k w' = counters k w.
Proof.
  unfold store, counters. intros E. injection E as E1 E2 E3 E4 E5.
  destruct k; assumption.
Qed.

Lemma outside_store k w w' : store w' = store w -> outside k w' = outside k w.
Proof.
  unfold store, outside, counters, other_kind. intros E. injection E as E1 E2 E3 E4 E5.
  destruct k; rewrite ?E1, ?E2, E3, E4, E5; reflexivity.
Qed.

(** X1.  Every counter route answers, with 200 or with 500.  On 200 the
    stored count has become what the operation makes of it (unchanged by
    get, one more by increment, 0 by reset; counted from 0 when no
    document existed), the answer carries that count, and nothing else
    stored has changed: the documents after the first, the other
    counter, the chat records, the gallery and the files.  On 500
    nothing stored has changed at all: an operation that fails on its
    first attempt and succeeds on its second is applied once. *)
Theorem counter_route_effect (k : CounterKind) (op : CounterOp) (w : World) :
  exists r,
    fst (counter_route k op w) = Some r
    /\ ((status r = 200
         /\ first_count k (snd (counter_route k op w)) = next_count op (first_count k w)
         /\ field "count" r = Some (JNum (next_count op (first_count k w)))
         /\ tail (counters k (snd (counter_route k op w))) = tail (counters k w)
         /\ outside k (snd (counter_route k op w)) = outside k w)
        \/ (status r = 500 /\ store (snd (counter_route k op w)) = store w)).
Proof.
  rewrite counter_route_unfold.
  pose proof (attempt_effect k op w) as E1.
  destruct (attempt k op w) as [[r1|e1] w1] eqn:A1.
  - exists r1. split; [reflexivity|]. left. cbn [snd].
    split; [eapply attempt_status; eassumption | exact E1].
  - pose proof (attempt_effect k op (snd (sleep 1000 w1))) as E2.
    assert (S1 : store (snd (sleep 1000 w1)) = store w)
      by (rewrite store_sleep; exact E1).
    destruct (attempt k op (snd (sleep 1000 w1))) as [[r2|e2] w2] eqn:A2.
    + exists r2. split; [reflexivity|]. left. cbn [snd].
      destruct E2 as (C & F & T & O).
      rewrite (first_count_store k _ _ S1) in C, F.
      rewrite (counters_store k _ _ S1) in T.
      rewrite (outside_store k _ _ S1) in O.
      split; [eapply attempt_status; eassumption|]. repeat split; assumption.
    + eexists. split; [reflexivity|]. right. cbn [snd]. split; [reflexivity|].
      change (store w2 = store w). rewrite E2. exact S1.
Qed.

Lemma first_count_with_env k e w : first_count k (with_env e w) = first_count k w.
Proof. destruct k; reflexivity. Qed.

Lemma serve_unfailing k t op w :
  first_count k (serve (no_failures t, k, op) w) = next_count op (first_count k w).
Proof.
  unfold serve. rewrite counter_route_unfold.
  destruct (attempt_succeeds k op (with_env (no_failures t) w) eq_refl) as (r & w' & A).
  pose proof (attempt_effect k op (with_env (no_failures t) w)) as E.
  rewrite A in *. cbn [snd]. destruct E as (C & _). rewrite C, first_count_with_env. reflexivity.
Qed.

(** X2.  Counter operations served one after the other compose: after
    any sequence of get, increment and reset requests on one counter,
    each answered before the next is taken up and none meeting a failure
    of the store, the stored count is the initial count (0 when no
    document existed) run through the operations in order; in
    particular n such increments raise it by exactly n.  (Nothing is
    said of requests that overlap.) *)
Theorem counter_operations_compose (k : CounterKind) (ops : list (Z * CounterOp)) (w : World) :
  first_count k (serve_all (unfailing k ops) w)
  = fold_left (fun c top => next_count (snd top) c) ops (first_count k w)
  /\ (Forall (fun top => snd top = Increment) ops ->
      first_count k (serve_all (unfailing k ops) w) = first_count k w + Z.of_nat (length ops)).
Proof.
  assert (G : forall w, first_count k (serve_all (unfailing k ops) w)
              = fold_left (fun c top => next_count (snd top) c) ops (first_count k w)).
  { induction ops as [|[t op] ops IH]; intros w0; [reflexivity|].
    change (serve_all (unfailing k ((t, op) :: ops)) w0)
      with (serve_all (unfailing k ops) (serve (no_failures t, k, op) w0)).
    rewrite IH, serve_unfailing. reflexivity. }
  split; [apply G|].
  intros F. rewrite G. clear G. generalize (first_count k w) as c.
  induction F as [|[t op] ops Hop _ IH]; intros c; simpl in *.
  - lia.
  - subst op. rewrite IH. simpl. lia.
Qed.

Lemma counter_operations_compose_witness :
  Forall (fun top : Z * CounterOp => snd top = Increment) [(1, Increment); (2, Increment); (3, Increment)]
  /\ first_count Visitor (serve_all (unfailing Visitor [(1, Increment); (2, Increment); (3, Increment)])
                            stale_counter_world) = 44.
Proof.
  assert (F : Forall (fun top : Z * CounterOp => snd top = Increment)
                [(1, Increment); (2, Increment); (3, Increment)]) by (repeat constructor).
  split; [exact F|].
  rewrite (proj2 (counter_operations_compose Visitor _ stale_counter_world) F). reflexivity.
Defined.

(** ** Chat records: adding, deleting, counting *)

Lemma required_some v t : required v = Some t -> v = Some t /\ t <> "".
Proof.
  unfold required. destruct v as [s|]; [|discriminate].
  destruct (String.eqb_spec s ""); [discriminate|]. intros E. inversion E; subst. auto.
Qed.

Lemma post_api_data_run `{Platform} (title content : option string) (w : World) :
  post_api_data title content w =
  match chat_validation title content with
  | Some message =>
      (Some (res_status_json 400 [("error", JStr message)]),
       set_nextId (N.succ (nextId w)) w)
  | None =>
      let d := {| chat_id := nextId w; chat_title := default "" title;
                  chat_content := default "" content;
                  chat_date := toLocaleString_viVN (clock w);
                  questionCount := Some 0; chat_createdAt := clock w |} in
      let w1 := set_nextId (N.succ (nextId w)) w in
      match faults w with
      | Some e :: rest =>
          (Some (res_status_json 400 [("error", JStr e)]),
           set_faults rest (emit (EvSave CChatData) w1))
      | _ =>
          (Some (res_json [("id", JOid (chat_id d)); ("title", JStr (chat_title d));
                           ("content", JStr (chat_content d)); ("date", JStr (chat_date d))]),
           set_chatData (chatData w ++ [d]) (after_io (EvSave CChatData) w1))
      end
  end.
Proof.
  unfold post_api_data, respond, try_catch, create_chat, bind, fresh_id, date_now, throw, ret, io,
    after_io.
  destruct (chat_validation title content); [reflexivity|].
  destruct w as [c t rs f n vc qc cd ci fs tr]. simpl.
  destruct f as [|[m|] f]; reflexivity.
Qed.

(** X3.  Adding a chat record.  With a title or a content that is
    missing or empty the answer is 400 with the validation message, and
    the store is not even called: nothing stored, no trace, no failure
    consumed.  With both present, a save that is rejected gives 400 with
    its message and nothing stored; otherwise the answer carries the new
    id, the title, the content and the date, and exactly one record is
    appended, with [questionCount] 0 and [date] and [createdAt] taken
    from the clock. *)
Theorem add_chat_record `{Platform} (title content : option string) (w : World) :
  match required title, required content with
  | Some t, Some c =>
      match faults w with
      | Some e :: _ =>
          fst (post_api_data title content w) = Some (res_status_json 400 [("error", JStr e)])
          /\ store (snd (post_api_data title content w)) = store w
      | _ =>
          fst (post_api_data title content w)
          = Some (res_json [("id", JOid (nextId w)); ("title", JStr t); ("content", JStr c);
                            ("date", JStr (toLocaleString_viVN (clock w)))])
          /\ store (snd (post_api_data title content w))
             = (visitorCounters w, questionRequestCounters w,
                chatData w ++ [{| chat_id := nextId w; chat_title := t; chat_content := c;
                                  chat_date := toLocaleString_viVN (clock w);
                                  questionCount := Some 0; chat_createdAt := clock w |}],
                carouselImages w, files w)
      end
  | _, _ =>
      (exists message,
         fst (post_api_data title content w) = Some (res_status_json 400 [("error", JStr message)]))
      /\ store (snd (post_api_data title content w)) = store w
      /\ trace (snd (post_api_data title content w)) = trace w
      /\ faults (snd (post_api_data title content w)) = faults w
  end.
Proof.
  rewrite post_api_data_run. unfold chat_validation.
  destruct (required title) as [t|] eqn:Rt, (required content) as [c|] eqn:Rc;
    try (split; [eexists; reflexivity | repeat split; reflexivity]).
  apply required_some in Rt, Rc. destruct Rt as [-> _], Rc as [-> _].
  destruct w as [cn t0 rs f n vc qc cd ci fs tr]. unfold after_io. simpl.
  destruct f as [|[e|] rest]; split; reflexivity.
Qed.

Lemma io_ok_faults w :
  io_ok 1 w = true -> match faults w with Some _ :: _ => False | _ => True end.
Proof.
  unfold io_ok. destruct (faults w) as [|[m|] f]; simpl; intros E; [exact I | discriminate | exact I].
Qed.

(** X4.  A record that has just been added is in the list: when both
    requests are served, the object that the add route answered is one
    of the items of the list route, and the list is one item longer than
    the collection was. *)
Theorem add_then_list `{Platform} (t c : string) (w : World) (e : Env) :
  t <> "" -> c <> "" -> io_ok 1 w = true -> io_ok 1 (with_env e w) = true ->
  exists item items,
    (body <$> fst (post_api_data (Some t) (Some c) w)) = Some (Json item)
    /\ fst (get_api_data (with_env e (snd (post_api_data (Some t) (Some c) w))))
       = Some (res_json_array items)
    /\ In item items
    /\ length items = S (length (chatData w)).
Proof.
  intros Ht Hc Hio He.
  set (d := {| chat_id := nextId w; chat_title := t; chat_content := c;
               chat_date := toLocaleString_viVN (clock w);
               questionCount := Some 0; chat_createdAt := clock w |}).
  assert (R : (body <$> fst (post_api_data (Some t) (Some c) w)) = Some (Json (list_item d))
              /\ chatData (snd (post_api_data (Some t) (Some c) w)) = chatData w ++ [d]).
  { rewrite post_api_data_run. unfold chat_validation.
    rewrite (required_nonempty (Some t) t eq_refl Ht), (required_nonempty (Some c) c eq_refl Hc).
    pose proof (io_ok_faults w Hio) as F.
    destruct w as [cn t0 rs f n vc qc cd ci fs tr]. unfold after_io. simpl in *.
    destruct f as [|[m|] rest]; [split; reflexivity | contradiction | split; reflexivity]. }
  destruct R as [R1 R2].
  set (w1 := snd (post_api_data (Some t) (Some c) w)) in *.
  assert (He1 : io_ok 1 (with_env e w1) = true) by exact He.
  exists (list_item d), (map list_item (sort_by newer_first (chatData w ++ [d]))).
  split; [exact R1|].
  rewrite (get_api_data_run _ He1). cbn [fst].
  replace (chatData (with_env e w1)) with (chatData w ++ [d]) by (symmetry; exact R2).
  split; [reflexivity|]. split.
  - apply in_map. eapply Permutation_in; [symmetry; apply sort_by_perm|].
    apply in_or_app. right. left. reflexivity.
  - rewrite length_map, (Permutation_length (sort_by_perm newer_first _)), length_app.
    simpl. lia.
Qed.

Lemma add_then_list_witness :
  "How?" <> "" /\ "Like this." <> ""
  /\ io_ok 1 three_questions = true
  /\ exists item items,
       (body <$> fst (@post_api_data node (Some "How?") (Some "Like this.") three_questions))
       = Some (Json item)
       /\ fst (get_api_data (with_env (no_failures 50)
                               (snd (@post_api_data node (Some "How?") (Some "Like this.")
                                       three_questions))))
          = Some (res_json_array items)
       /\ In item items
       /\ length items = S (length (chatData three_questions)).
Proof.
  split; [discriminate|]. split; [discriminate|]. split; [reflexivity|].
  apply (@add_then_list node "How?" "Like this." three_questions (no_failures 50));
    [discriminate | discriminate | reflexivity | reflexivity].
Defined.

Lemma remove_chat_absent i l :
  Forall (fun d => chat_id d <> i) l -> remove_chat i l = l.
Proof.
  induction 1 as [|d l Hd _ IH]; simpl; [reflexivity|].
  destruct (N.eqb_spec (chat_id d) i); [contradiction|]. rewrite IH. reflexivity.
Qed.

Lemma remove_chat_others i l :
  filter (fun d => chat_id d <> i) (remove_chat i l) = filter (fun d => chat_id d <> i) l.
Proof.
  induction l as [|d l IH]; simpl; [reflexivity|].
  destruct (N.eqb_spec (chat_id d) i) as [E|N].
  - rewrite (filter_cons_False _ d l) by (intros C; apply C; exact E). reflexivity.
  - rewrite !filter_cons_True by exact N. rewrite IH. reflexivity.
Qed.

Lemma remove_chat_gone i l :
  NoDup (map chat_id l) -> Forall (fun d => chat_id d <> i) (remove_chat i l).
Proof.
  induction l as [|d l IH]; simpl; intros ND; [constructor|].
  apply NoDup_cons in ND. destruct ND as [Hn ND].
  destruct (N.eqb_spec (chat_id d) i) as [E|N].
  - subst i. apply Forall_forall. intros x Hx C. apply Hn.
    rewrite <- C. apply list_elem_of_In, in_map, list_elem_of_In. exact Hx.
  - constructor; [exact N | apply IH; exact ND].
Qed.

Lemma delete_api_data_run `{Platform} (id : string) (i : ObjectId) (w : World) :
  castObjectId id = Some i -> io_ok 1 w = true ->
  delete_api_data id w
  = (Some (res_json [("message", JStr "Deleted successfully")]),
     set_chatData (remove_chat i (chatData w)) (after_io (EvFindByIdAndDelete CChatData) w)).
Proof.
  intros Hc Hio. unfold delete_api_data, respond, try_catch, bind. rewrite Hc.
  rewrite (io_run _ w Hio). cbn.
  replace (chatData (after_io (EvFindByIdAndDelete CChatData) w)) with (chatData w)
    by (unfold after_io; destruct (faults w); reflexivity).
  reflexivity.
Qed.

(** X5.  Deleting a chat record, the store answering.  An id that
    cannot be cast is answered 500 and nothing happens.  Otherwise the
    answer is 200 (Deleted successfully) whether or not a record has the
    id; the records with other ids are kept, in their order; when no
    record has the id nothing stored changes; when the ids are distinct
    no record with the id is left; counters, gallery and files are not
    touched. *)
Theorem delete_chat_record `{Platform} (id : string) (w : World) :
  io_ok 1 w = true ->
  match castObjectId id with
  | None =>
      delete_api_data id w
      = (Some (res_status_json 500 [("error", JStr (cast_error id "ChatData"))]), w)
  | Some i =>
      fst (delete_api_data id w) = Some (res_json [("message", JStr "Deleted successfully")])
      /\ filter (fun d => chat_id d <> i) (chatData (snd (delete_api_data id w)))
         = filter (fun d => chat_id d <> i) (chatData w)
      /\ (Forall (fun d => chat_id d <> i) (chatData w) ->
          store (snd (delete_api_data id w)) = store w)
      /\ (NoDup (map chat_id (chatData w)) ->
          Forall (fun d => chat_id d <> i) (chatData (snd (delete_api_data id w))))
      /\ (visitorCounters (snd (delete_api_data id w)),
          questionRequestCounters (snd (delete_api_data id w)),
          carouselImages (snd (delete_api_data id w)), files (snd (delete_api_data id w)))
         = (visitorCounters w, questionRequestCounters w, carouselImages w, files w)
  end.
Proof.
  intros Hio. destruct (castObjectId id) as [i|] eqn:Hc.
  - rewrite (delete_api_data_run id i w Hc Hio). cbn [fst snd].
    assert (C : chatData (set_chatData (remove_chat i (chatData w))
                            (after_io (EvFindByIdAndDelete CChatData) w))
                = remove_chat i (chatData w)) by reflexivity.
    rewrite C. split; [reflexivity|]. split; [apply remove_chat_others|]. split.
    + intros A. unfold store. cbn. rewrite (remove_chat_absent _ _ A).
      unfold after_io. destruct (faults w); reflexivity.
    + split; [apply remove_chat_gone|].
      unfold after_io. destruct (faults w); reflexivity.
  - unfold delete_api_data, respond, try_catch, throw, ret. rewrite Hc. reflexivity.
Qed.

Lemma delete_chat_record_witness :
  io_ok 1 asked_thrice = true
  /\ Forall (fun d => chat_id d <> 24912482966938930280208240657%N)
       (chatData (snd (@delete_api_data node "507f1f77bcf86cd799439011" asked_thrice))).
Proof.
  split; [reflexivity|].
  pose proof (@delete_chat_record node "507f1f77bcf86cd799439011" asked_thrice eq_refl) as T.
  change (@castObjectId node "507f1f77bcf86cd799439011")
    with (Some 24912482966938930280208240657%N) in T.
  cbv beta iota in T. destruct T as (_ & _ & _ & G & _). apply G.
  change (NoDup [1%N; 24912482966938930280208240657%N; 3%N]).
  repeat (apply NoDup_cons; split; [rewrite ?elem_of_cons, elem_of_nil; intuition discriminate|]).
  apply NoDup_nil. exact I.
Defined.

Lemma update_by_id_total i l d' l' :
  update_by_id i l = Some (d', l') ->
  sum_questionCount l' = sum_questionCount l + 1 /\ length l' = length l.
Proof.
  revert d' l'. induction l as [|d l IH]; simpl; intros d' l'; [discriminate|].
  destruct (N.eqb (chat_id d) i).
  - intros E. inversion E; subst. unfold sum_questionCount. simpl. split; [lia | reflexivity].
  - destruct (update_by_id i l) as [[d0 l0]|]; [|discriminate].
    intros E. inversion E; subst. destruct (IH _ _ eq_refl) as [S L].
    unfold sum_questionCount in *. simpl. split; [lia | congruence].
Qed.

Lemma update_by_id_found i l :
  Exists (fun d => chat_id d = i) l -> exists d' l', update_by_id i l = Some (d', l').
Proof.
  induction 1 as [d l Hd | d l _ IH]; simpl.
  - rewrite Hd, N.eqb_refl. eauto.
  - destruct (N.eqb (chat_id d) i); [eauto|].
    destruct IH as (d' & l' & ->). eauto.
Qed.

(** X6.  After an increment of an existing record, the total-count
    route reports a [totalCount] exactly one above the sum before, and
    the same number of records. *)
Theorem increment_raises_total `{Platform} (id : string) (i : ObjectId) (w : World) (e : Env) :
  castObjectId id = Some i ->
  Exists (fun d => chat_id d = i) (chatData w) ->
  io_ok 1 w = true -> io_ok 1 (with_env e w) = true ->
  fst (get_api_questions_total_count (with_env e (snd (post_api_data_increment id w))))
  = Some (res_json [("success", JBool true);
                    ("totalCount", JNum (sum_questionCount (chatData w) + 1));
                    ("totalQuestions", JNum (Z.of_nat (length (chatData w))))]).
Proof.
  intros Hc Hex Hio He.
  destruct (update_by_id_found i _ Hex) as (d' & l' & U).
  destruct (update_by_id_total _ _ _ _ U) as [S L].
  rewrite (increment_run id i w Hc Hio), U. cbn [snd].
  rewrite total_count_run by exact He.
  change (chatData (with_env e (set_chatData l' (after_io (EvFindByIdAndUpdate CChatData) w))))
    with l'.
  rewrite S, L. reflexivity.
Qed.

Lemma increment_raises_total_witness :
  io_ok 1 asked_thrice = true
  /\ fst (get_api_questions_total_count
            (with_env (no_failures 60)
               (snd (@post_api_data_increment node "507f1f77bcf86cd799439011" asked_thrice))))
     = Some (res_json [("success", JBool true); ("totalCount", JNum 9);
                       ("totalQuestions", JNum 3)]).
Proof.
  split; [reflexivity|].
  apply (@increment_raises_total node "507f1f77bcf86cd799439011"
           24912482966938930280208240657%N asked_thrice (no_failures 60));
    [reflexivity | | reflexivity | reflexivity].
  apply Exists_cons_tl, Exists_cons_hd. reflexivity.
Defined.

(** ** Routes that only read *)

(** X7.  The routes that read (the list of chat records, the total
    count, the list of gallery images, the two pages) never change what
    is stored, whatever the store answers. *)
Theorem reading_routes_change_nothing (w : World) :
  store (snd (get_api_data w)) = store w
  /\ store (snd (get_api_questions_total_count w)) = store w
  /\ store (snd (get_api_carousel w)) = store w
  /\ (forall name, store (snd (sendFile name w)) = store w).
Proof.
  destruct w as [c t rs f n vc qc cd ci fs tr].
  unfold get_api_data, get_api_questions_total_count, get_api_carousel, sendFile, respond,
    try_catch, find_chat_newest_first, find_chat, bind, io, ret, console_error, tell.
  simpl. repeat split; try (destruct f as [|[m|] f]; reflexivity).
  intros name. destruct (fs !! name); reflexivity.
Qed.

(** ** The gallery *)

Lemma by_order_sorted l :
  StronglySorted (fun a b => img_order a <= img_order b) (sort_by by_order l).
Proof.
  assert (S : StronglySorted (fun a b => by_order a b = true) (sort_by by_order l)).
  { apply sort_by_sorted; unfold by_order; intros; lia. }
  induction S as [|d rest S IH F]; constructor; [exact IH|].
  eapply Forall_impl; [exact F|]. unfold by_order. intros b Hb. simpl in Hb. lia.
Qed.

(** X8.  The gallery list: when the query is rejected the answer is 500
    with its message; otherwise it is the array of all the gallery
    records (each once), in ascending [order]. *)
Theorem carousel_list_by_order (w : World) :
  match faults w with
  | Some e :: _ =>
      fst (get_api_carousel w) = Some (res_status_json 500 [("error", JStr e)])
  | _ =>
      exists docs,
        fst (get_api_carousel w) = Some (res_json_array (map json_of_image docs))
        /\ Permutation docs (carouselImages w)
        /\ StronglySorted (fun a b => img_order a <= img_order b) docs
  end.
Proof.
  destruct w as [c t rs f n vc qc cd ci fs tr].
  unfold get_api_carousel, respond, try_catch, bind, io, ret. simpl.
  destruct f as [|[m|] f]; simpl; try reflexivity;
    (exists (sort_by by_order ci); split; [reflexivity|];
     split; [apply sort_by_perm | apply by_order_sorted]).
Qed.

Lemma post_api_carousel_run (b : ReqBody) (w : World) :
  post_api_carousel b w =
  match image_validation (b_title b) (b_imageUrl b) with
  | Some message =>
      (Some (res_status_json 400 [("error", JStr message)]),
       set_nextId (N.succ (nextId w)) w)
  | None =>
      let d := {| img_id := nextId w; img_title := default "" (b_title b);
                  imageUrl := default "" (b_imageUrl b); img_alt := default "" (b_alt b);
                  img_order := or_number (b_order b) 0; img_createdAt := clock w |} in
      let w1 := set_nextId (N.succ (nextId w)) w in
      match faults w with
      | Some e :: rest =>
          (Some (res_status_json 400 [("error", JStr e)]),
           set_faults rest (emit (EvSave CCarouselImage) w1))
      | _ =>
          (Some {| status := 200; body := Json (json_of_image d) |},
           set_carouselImages (carouselImages w ++ [d]) (after_io (EvSave CCarouselImage) w1))
      end
  end.
Proof.
  unfold post_api_carousel, respond, try_catch, create_image, bind, fresh_id, date_now, throw,
    ret, io, after_io.
  destruct (image_validation (b_title b) (b_imageUrl b)); [reflexivity|].
  destruct w as [c t rs f n vc qc cd ci fs tr]. simpl.
  destruct f as [|[m|] f]; reflexivity.
Qed.

(** X9.  Adding a gallery record by URL.  A missing or empty [title] or
    [imageUrl] is answered 400 with the validation message without a
    call to the store.  With both present, a rejected save is answered
    400 and stores nothing; otherwise the record is appended with [alt]
    defaulting to the empty string and [order] to 0, and it is the
    answer. *)
Theorem add_gallery_record (b : ReqBody) (w : World) :
  match required (b_title b), required (b_imageUrl b) with
  | Some t, Some u =>
      match faults w with
      | Some e :: _ =>
          fst (post_api_carousel b w) = Some (res_status_json 400 [("error", JStr e)])
          /\ store (snd (post_api_carousel b w)) = store w
      | _ =>
          let d := {| img_id := nextId w; img_title := t; imageUrl := u;
                      img_alt := default "" (b_alt b);
                      img_order := default 0 (b_order b); img_createdAt := clock w |} in
          fst (post_api_carousel b w) = Some {| status := 200; body := Json (json_of_image d) |}
          /\ store (snd (post_api_carousel b w))
             = (visitorCounters w, questionRequestCounters w, chatData w,
                carouselImages w ++ [d], files w)
      end
  | _, _ =>
      (exists message,
         fst (post_api_carousel b w) = Some (res_status_json 400 [("error", JStr message)]))
      /\ store (snd (post_api_carousel b w)) = store w
      /\ trace (snd (post_api_carousel b w)) = trace w
      /\ faults (snd (post_api_carousel b w)) = faults w
  end.
Proof.
  rewrite post_api_carousel_run. unfold image_validation.
  destruct (required (b_title b)) as [t|] eqn:Rt, (required (b_imageUrl b)) as [u|] eqn:Ru;
    try (split; [eexists; reflexivity | repeat split; reflexivity]).
  apply required_some in Rt, Ru. destruct Rt as [Rt _], Ru as [Ru _].
  rewrite Rt, Ru, or_number_default.
  destruct w as [cn t0 rs f n vc qc cd ci fs tr]. unfold after_io. simpl.
  destruct f as [|[e|] rest]; split; reflexivity.
Qed.

(** ** Uploading a file, and deleting a gallery record *)

Local Opaque string_of_Z.

Lemma upload_route_stores `{Platform} (file : FilePart) (b : ReqBody) (w : World) :
  fieldname file = "image" -> In (mimetype file) allowedMimes -> io_ok 2 w = true ->
  let name := upload_name file w in
  let d := {| img_id := nextId w; img_title := or_string (b_title b) "Untitled";
              imageUrl := "/uploads/" +:+ name; img_alt := or_string (b_alt b) "";
              img_order := or_number (b_order b) 0; img_createdAt := clock w |} in
  fst (upload_route (Some file) b w)
  = Some (res_json [("success", JBool true);
                    ("message", JStr "Image uploaded successfully");
                    ("data", json_of_image d)])
  /\ store (snd (upload_route (Some file) b w))
     = (visitorCounters w, questionRequestCounters w, chatData w, carouselImages w ++ [d],
        <[in_uploadDir name := content file]> (files w))
  /\ trace (snd (upload_route (Some file) b w))
     = trace w ++ [EvWriteFile (in_uploadDir name); EvSave CCarouselImage].
Proof.
  intros Hf Hm Hio name d. subst name d.
  unfold upload_route, upload_single, upload_name, next_random.
  rewrite Hf, (fileFilter_accepts file Hm). simpl.
  unfold storage_filename, writeFile, bind, date_now, random_1e9, io, ret.
  unfold post_api_carousel_upload, respond, try_catch, bind.
  assert (R : forall t', required (Some (or_string t' "Untitled"))
                         = Some (or_string t' "Untitled"))
    by (intros; apply required_or_string; discriminate).
  destruct w as [c t rs f n vc qc cd ci fs tr]. unfold io_ok in Hio. simpl in *.
  destruct f as [|[m1|] [|[m2|] f]]; simpl in Hio; try discriminate Hio;
    destruct rs as [|r rs]; simpl;
    (erewrite create_image_saved; [| apply R | reflexivity | reflexivity]);
    simpl; rewrite <- ?app_assoc; repeat split; reflexivity.
Qed.


Local Transparent string_of_Z.



Lemma remove_image_present i l1 d l2 :
  img_id d = i -> Forall (fun x => img_id x <> i) l1 ->
  remove_image i (l1 ++ d :: l2) = (Some d, l1 ++ l2).
Proof.
  intros Hd. induction 1 as [|x l1 Hx _ IH]; simpl.
  - rewrite Hd, N.eqb_refl. reflexivity.
  - destruct (N.eqb_spec (img_id x) i); [contradiction|]. rewrite IH. reflexivity.
Qed.

(** The unlink of [delete /api/carousel/:id], its error logged. *)
Lemma unlink_logged_effect (p : string) (w : World) :
  let w' := snd (try_catch (unlink p)
                   (fun err => console_error ("Error deleting file: " +:+ err)) w) in
  (visitorCounters w', questionRequestCounters w', chatData w', carouselImages w')
  = (visitorCounters w, questionRequestCounters w, chatData w, carouselImages w)
  /\ (files w' = files w \/ files w' = delete p (files w))
  /\ (io_ok 1 w = true -> files w' = delete p (files w)).
Proof.
  destruct w as [c t rs f n vc qc cd ci fs tr].
  unfold try_catch, unlink, bind, io, console_error, tell, io_ok. simpl.
  destruct f as [|[m|] f]; simpl; destruct (fs !! p) eqn:L; simpl;
    repeat split; auto; try discriminate; intros _; symmetry; apply delete_id; exact L.
Qed.

Lemma delete_api_carousel_run `{Platform} (id : string) (i : ObjectId) (w : World) :
  castObjectId id = Some i -> io_ok 1 w = true ->
  delete_api_carousel id w
  = (Some (res_json [("message", JStr "Deleted successfully")]),
     let w2 := set_carouselImages (snd (remove_image i (carouselImages w)))
                 (after_io (EvFindByIdAndDelete CCarouselImage) w) in
     match fst (remove_image i (carouselImages w)) with
     | Some d =>
         if String.prefix "/uploads/" (imageUrl d)
         then snd (try_catch (unlink (below_dirname (imageUrl d)))
                     (fun err => console_error ("Error deleting file: " +:+ err)) w2)
         else w2
     | None => w2
     end).
Proof.
  intros Hc Hio. unfold delete_api_carousel, respond, try_catch at 1, bind. rewrite Hc.
  rewrite (io_run _ w Hio).
  replace (carouselImages (after_io (EvFindByIdAndDelete CCarouselImage) w))
    with (carouselImages w) by (unfold after_io; destruct (faults w); reflexivity).
  destruct (remove_image i (carouselImages w)) as [[d|] rest]; cbn [fst snd]; [|reflexivity].
  destruct (String.prefix "/uploads/" (imageUrl d)); [|reflexivity].
  set (w2 := set_carouselImages rest (after_io (EvFindByIdAndDelete CCarouselImage) w)).
  unfold try_catch, ret.
  destruct (unlink (below_dirname (imageUrl d)) w2) as [[u|m] w3]; reflexivity.
Qed.

Lemma io_ok_after e w : io_ok 2 w = true -> io_ok 1 (after_io e w) = true.
Proof.
  unfold io_ok, after_io. destruct w as [c t rs f n vc qc cd ci fs tr]. simpl.
  destruct f as [|[m1|] [|[m2|] f]]; simpl; intros E; try discriminate; reflexivity.
Qed.

Lemma delete_carousel_frame `{Platform} (id : string) (i : ObjectId) (w : World) :
  castObjectId id = Some i -> io_ok 1 w = true ->
  (visitorCounters (snd (delete_api_carousel id w)),
   questionRequestCounters (snd (delete_api_carousel id w)),
   chatData (snd (delete_api_carousel id w)))
  = (visitorCounters w, questionRequestCounters w, chatData w)
  /\ carouselImages (snd (delete_api_carousel id w)) = snd (remove_image i (carouselImages w)).
Proof.
  intros Hc Hio. rewrite (delete_api_carousel_run id i w Hc Hio). cbn [snd].
  set (w2 := set_carouselImages _ _).
  assert (B : (visitorCounters w2, questionRequestCounters w2, chatData w2)
              = (visitorCounters w, questionRequestCounters w, chatData w)
              /\ carouselImages w2 = snd (remove_image i (carouselImages w))).
  { unfold w2, after_io. destruct (faults w); split; reflexivity. }
  destruct (fst (remove_image i (carouselImages w))) as [d|]; [|exact B].
  destruct (String.prefix "/uploads/" (imageUrl d)); [|exact B].
  destruct (unlink_logged_effect (below_dirname (imageUrl d)) w2) as (E & _).
  cbv zeta in E. injection E as E1 E2 E3 E4. destruct B as [B1 B2].
  rewrite E1, E2, E3, E4. split; assumption.
Qed.

Lemma delete_carousel_present `{Platform} (id : string) (i : ObjectId) (w : World) l1 d l2 :
  castObjectId id = Some i -> io_ok 1 w = true ->
  carouselImages w = l1 ++ d :: l2 -> img_id d = i ->
  Forall (fun x => img_id x <> i) l1 ->
  carouselImages (snd (delete_api_carousel id w)) = l1 ++ l2
  /\ (String.prefix "/uploads/" (imageUrl d) = false ->
      files (snd (delete_api_carousel id w)) = files w
      /\ trace (snd (delete_api_carousel id w))
         = trace w ++ [EvFindByIdAndDelete CCarouselImage])
  /\ (String.prefix "/uploads/" (imageUrl d) = true ->
      (files (snd (delete_api_carousel id w)) = files w
       \/ files (snd (delete_api_carousel id w))
          = delete (below_dirname (imageUrl d)) (files w))
      /\ (io_ok 2 w = true ->
          files (snd (delete_api_carousel id w))
          = delete (below_dirname (imageUrl d)) (files w))).
Proof.
  intros Hc Hio Hl Hd Hl1.
  destruct (delete_carousel_frame id i w Hc Hio) as [Fr Ci].
  split; [rewrite Ci, Hl, (remove_image_present _ _ _ _ Hd Hl1); reflexivity|].
  rewrite (delete_api_carousel_run id i w Hc Hio). cbn [snd].
  rewrite Hl, (remove_image_present _ _ _ _ Hd Hl1). cbn [fst snd].
  set (w2 := set_carouselImages (l1 ++ l2) (after_io (EvFindByIdAndDelete CCarouselImage) w)).
  assert (F2 : files w2 = files w)
    by (unfold w2, after_io; destruct (faults w); reflexivity).
  split.
  - intros P. rewrite P. split; [exact F2|].
    unfold w2, after_io. destruct (faults w); reflexivity.
  - intros P. rewrite P.
    destruct (unlink_logged_effect (below_dirname (imageUrl d)) w2) as (_ & O & K).
    cbv zeta in O, K. rewrite F2 in O, K. split; [exact O|].
    intros H2. apply K. unfold w2.
    apply (io_ok_after (EvFindByIdAndDelete CCarouselImage) w) in H2. exact H2.
Qed.



Example delete_resolves_dot_segments :
  below_dirname "/uploads/../index.html" = "index.html"
  /\ files (snd (@delete_api_carousel node "000000000000000000000009" dotted_world))
     !! "index.html" = None.
Proof. split; vm_compute; reflexivity. Qed.

Lemma prefix_append (p s : string) : String.prefix p (p +:+ s) = true.
Proof.
  induction p as [|a p IH]; [destruct s; reflexivity|].
  change (String a p +:+ s) with (String a (p +:+ s)). simpl.
  destruct (ascii_dec a a) as [_|N]; [exact IH | contradiction].
Qed.

(** X12.  Upload, then delete: after a successful multipart upload,
    deleting the record it created (by its id) removes the file it wrote
    too; the store is back to what it was before the upload (the name
    being one that no file had). *)
Theorem upload_then_delete `{Platform}
  (file : FilePart) (b : ReqBody) (w : World) (id : string) (e : Env) :
  fieldname file = "image" -> In (mimetype file) allowedMimes -> io_ok 2 w = true ->
  castObjectId id = Some (nextId w) ->
  Forall (fun d => img_id d <> nextId w) (carouselImages w) ->
  files w !! in_uploadDir (upload_name file w) = None ->
  io_ok 2 (with_env e w) = true ->
  store (snd (delete_api_carousel id (with_env e (snd (upload_route (Some file) b w)))))
  = store w.
Proof.
  intros Hf Hm Hio Hc Hfresh Hnew He.
  destruct (upload_route_stores file b w Hf Hm Hio) as (_ & S & _). cbv zeta in S.
  set (w1 := snd (upload_route (Some file) b w)) in *.
  set (d := {| img_id := nextId w; img_title := or_string (b_title b) "Untitled";
               imageUrl := "/uploads/" +:+ upload_name file w;
               img_alt := or_string (b_alt b) "";
               img_order := or_number (b_order b) 0; img_createdAt := clock w |}) in *.
  unfold store in S. injection S as S1 S2 S3 S4 S5.
  assert (He2 : io_ok 2 (with_env e w1) = true) by exact He.
  assert (He1 : io_ok 1 (with_env e w1) = true).
  { unfold io_ok in *. simpl in *. destruct (env_faults e) as [|[m1|] [|[m2|] f]];
      simpl in *; try discriminate; reflexivity. }
  destruct (delete_carousel_frame id (nextId w) (with_env e w1) Hc He1) as [Fr _].
  destruct (delete_carousel_present id (nextId w) (with_env e w1) (carouselImages w) d []
              Hc He1 S4 eq_refl Hfresh) as (Ci & _ & P).
  destruct (P (prefix_append "/uploads/" (upload_name file w))) as [_ Fd].
  specialize (Fd He2). injection Fr as F1 F2 F3.
  unfold store. rewrite F1, F2, F3, Ci, Fd, app_nil_r.
  change (files (with_env e w1)) with (files w1). rewrite S5.
  change (below_dirname (imageUrl d)) with (in_uploadDir (upload_name file w)).
  rewrite delete_insert_eq, (delete_id _ _ Hnew).
  change (visitorCounters (with_env e w1)) with (visitorCounters w1).
  change (questionRequestCounters (with_env e w1)) with (questionRequestCounters w1).
  change (chatData (with_env e w1)) with (chatData w1).
  rewrite S1, S2, S3. reflexivity.
Qed.

Lemma upload_then_delete_witness :
  fieldname png_part = "image" /\ In (mimetype png_part) allowedMimes
  /\ io_ok 2 empty_world = true
  /\ @castObjectId node "000000000000000000000001" = Some (nextId empty_world)
  /\ store (snd (@delete_api_carousel node "000000000000000000000001"
                   (with_env (no_failures 70)
                      (snd (@upload_route node (Some png_part) no_body empty_world)))))
     = store empty_world.
Proof.
  assert (Hm : In (mimetype png_part) allowedMimes) by (simpl; auto).
  split; [reflexivity|]. split; [exact Hm|]. split; [reflexivity|]. split; [reflexivity|].
  apply (@upload_then_delete node png_part no_body empty_world "000000000000000000000001"
           (no_failures 70) eq_refl Hm eq_refl eq_refl (Forall_nil_2 _)).
  - apply lookup_empty.
  - reflexivity.
Defined.

(** ** The base64 route: the prefix, and what fails *)

Lemma drop_prefix_append p s : drop_prefix p (p +:+ s) = Some s.
Proof.
  induction p as [|a p IH]; [destruct s; reflexivity|].
  change (String a p +:+ s) with (String a (p +:+ s)). simpl.
  rewrite Ascii.eqb_refl. exact IH.
Qed.

Lemma drop_prefix_none p s : String.prefix p s = false -> drop_prefix p s = None.
Proof.
  revert s. induction p as [|a p IH]; intros s; destruct s as [|b s]; simpl;
    try discriminate; try reflexivity.
  destruct (ascii_dec a b) as [->|N].
  - rewrite Ascii.eqb_refl. apply IH.
  - intros _. destruct (Ascii.eqb_spec a b); [contradiction | reflexivity].
Qed.

Lemma drop_prefix_suffix p s r : drop_prefix p s = Some r -> s = p +:+ r.
Proof.
  revert s. induction p as [|a p IH]; intros s; simpl.
  - intros E. inversion E. reflexivity.
  - destruct s as [|b s]; [discriminate|].
    destruct (Ascii.eqb_spec a b) as [->|N]; [|discriminate].
    intros E. rewrite (IH _ E). reflexivity.
Qed.

Lemma skip_word_append ty rest :
  all_word ty = true ->
  match rest with String c _ => is_word c = false | EmptyString => True end ->
  skip_word (ty +:+ rest) = rest.
Proof.
  intros Hty Hrest. induction ty as [|a ty IH].
  - change ("" +:+ rest) with rest. destruct rest as [|c r]; [reflexivity|].
    simpl. rewrite Hrest. reflexivity.
  - change (String a ty +:+ rest) with (String a (ty +:+ rest)).
    simpl in *. apply andb_true_iff in Hty. destruct Hty as [Ha Hty].
    rewrite Ha. apply IH. exact Hty.
Qed.

Lemma skip_word_suffix s : exists q, s = q +:+ skip_word s.
Proof.
  induction s as [|c s [q IH]]; [exists ""; reflexivity|]. simpl.
  destruct (is_word c).
  - exists (String c q). change (String c q +:+ skip_word s) with (String c (q +:+ skip_word s)).
    rewrite <- IH. reflexivity.
  - exists "". reflexivity.
Qed.

(** X13.  The prefix the base64 route strips.  A string made of
    [data:image/], a non-empty run of word characters, [;base64,] and a
    payload is reduced to the payload; a string that does not begin with
    [data:image/] is left as it is; and in every case what is left is a
    suffix of the input. *)
Theorem strip_data_prefix_spec :
  (forall ty payload,
     ty <> "" -> all_word ty = true ->
     strip_data_prefix ("data:image/" +:+ ty +:+ ";base64," +:+ payload) = payload)
  /\ (forall s, String.prefix "data:image/" s = false -> strip_data_prefix s = s)
  /\ (forall s, exists p, s = p +:+ strip_data_prefix s).
Proof.
  split; [|split].
  - intros ty payload Hne Hw. unfold strip_data_prefix.
    rewrite drop_prefix_append.
    destruct ty as [|c ty]; [contradiction|].
    change (String c ty +:+ ";base64," +:+ payload)
      with (String c (ty +:+ ";base64," +:+ payload)).
    simpl in Hw. apply andb_true_iff in Hw. destruct Hw as [Hc Hty]. rewrite Hc.
    change (String c (ty +:+ ";base64," +:+ payload))
      with (String c ty +:+ (";base64," +:+ payload)).
    rewrite skip_word_append.
    + rewrite drop_prefix_append. reflexivity.
    + simpl. rewrite Hc. exact Hty.
    + reflexivity.
  - intros s Hp. unfold strip_data_prefix. rewrite (drop_prefix_none _ _ Hp). reflexivity.
  - intros s. unfold strip_data_prefix.
    destruct (drop_prefix "data:image/" s) as [rest|] eqn:D; [|exists ""; reflexivity].
    destruct rest as [|c rest]; [exists ""; reflexivity|].
    destruct (is_word c); [|exists ""; reflexivity].
    destruct (drop_prefix ";base64," (skip_word (String c rest))) as [data|] eqn:D2;
      [|exists ""; reflexivity].
    apply drop_prefix_suffix in D, D2.
    destruct (skip_word_suffix (String c rest)) as [q Hq].
    exists ("data:image/" +:+ q +:+ ";base64,").
    rewrite D, Hq, D2, !append_assoc. reflexivity.
Qed.

Lemma strip_data_prefix_spec_witness :
  "jpeg" <> "" /\ all_word "jpeg" = true
  /\ strip_data_prefix "data:image/jpeg;base64,/9j/4AAQ" = "/9j/4AAQ".
Proof.
  split; [discriminate|]. split; [reflexivity|].
  apply (proj1 strip_data_prefix_spec "jpeg" "/9j/4AAQ"); [discriminate | reflexivity].
Defined.

Local Opaque string_of_Z.

(** X14.  Uploads that store nothing.  The base64 route answers 400 (No
    image data provided) to a missing or empty [imageData] and does
    nothing else.  When the write of the file is rejected, the base64
    route answers 400 with the error and the multipart route's
    middleware hands the error to the framework (500); in both cases
    neither file nor gallery record is stored. *)
Theorem upload_failures_store_nothing `{Platform} (b : ReqBody) (w : World) :
  (required (b_imageData b) = None ->
   post_api_carousel_upload_base64 b w
   = (Some (res_status_json 400 [("error", JStr "No image data provided")]), w))
  /\ (forall e rest, faults w = Some e :: rest ->
      (forall imageData, required (b_imageData b) = Some imageData ->
         fst (post_api_carousel_upload_base64 b w)
         = Some (res_status_json 400 [("error", JStr e)])
         /\ store (snd (post_api_carousel_upload_base64 b w)) = store w)
      /\ (forall file, fieldname file = "image" -> In (mimetype file) allowedMimes ->
            fst (upload_route (Some file) b w)
            = Some {| status := 500; body := ErrorPage e |}
            /\ store (snd (upload_route (Some file) b w)) = store w)).
Proof.
  split.
  - intros R. unfold post_api_carousel_upload_base64, respond, try_catch, ret. rewrite R.
    reflexivity.
  - intros e rest F. split.
    + intros imageData R.
      unfold post_api_carousel_upload_base64, respond, try_catch, bind. rewrite R.
      unfold date_now, random_1e9, writeFile, bind, io, ret.
      destruct w as [c t rs f n vc qc cd ci fs tr]. simpl in *. subst f.
      destruct rs; split; reflexivity.
    + intros file Hf Hm.
      unfold upload_route, upload_single. rewrite Hf, (fileFilter_accepts file Hm). simpl.
      unfold storage_filename, writeFile, bind, date_now, random_1e9, io, ret.
      destruct w as [c t rs f n vc qc cd ci fs tr]. simpl in *. subst f.
      destruct rs; split; reflexivity.
Qed.

Local Transparent string_of_Z.

Lemma upload_failures_store_nothing_witness :
  faults disk_full_world = [Some "ENOSPC: no space left on device"]
  /\ store (snd (@post_api_carousel_upload_base64 node (base64_body "aGVsbG8=") disk_full_world))
     = store disk_full_world.
Proof.
  split; [reflexivity|].
  destruct (@upload_failures_store_nothing node (base64_body "aGVsbG8=") disk_full_world)
    as [_ T].
  destruct (T _ _ eq_refl) as [B _].
  destruct (B "aGVsbG8=" eq_refl) as [_ S]. exact S.
Defined.

(** ** Start-up: the counters are initialized *)

(** X15.  Initialization of a counter at start-up never throws (a
    failure is logged), never touches anything but its own collection,
    leaves an existing document alone, and on an empty collection stores
    nothing or the one document with count 0, the latter whenever the
    store does not fail. *)
Theorem initialize_counter (k : CounterKind) (w : World) :
  fst (initializeCounter k w) = Ok tt
  /\ outside k (snd (initializeCounter k w)) = outside k w
  /\ (counters k w <> [] -> store (snd (initializeCounter k w)) = store w)
  /\ (counters k w = [] ->
      (store (snd (initializeCounter k w)) = store w
       \/ counters k (snd (initializeCounter k w))
          = [{| ctr_id := nextId w; count := 0; lastUpdated := clock w |}])
      /\ (io_ok 2 w = true ->
          counters k (snd (initializeCounter k w))
          = [{| ctr_id := nextId w; count := 0; lastUpdated := clock w |}])).
Proof.
  destruct w as [c t rs f n vc qc cd ci fs tr].
  unfold initializeCounter, try_catch, findOne, save_counter, new_counter, bind, ret, io,
    fresh_id, date_now, console_error, tell, io_ok.
  destruct f as [|[m1|] [|[m2|] f]], vc as [|v vc], qc as [|q qc], k; simpl;
    repeat split; auto; try congruence; try discriminate.
Qed.

Lemma initialize_counter_witness :
  counters Visitor empty_world = [] /\ io_ok 2 empty_world = true
  /\ counters Visitor (snd (initializeVisitorCounter empty_world))
     = [{| ctr_id := 1%N; count := 0; lastUpdated := 1700000000000 |}].
Proof.
  split; [reflexivity|]. split; [reflexivity|].
  destruct (initialize_counter Visitor empty_world) as (_ & _ & _ & T).
  destruct (T eq_refl) as [_ C]. exact (C eq_refl).
Defined.

(** ** Chat records: how the routes compose *)

Lemma update_by_id_same_in_list i l d' l' :
  update_by_id i l = Some (d', l') -> Forall2 same_in_list l l'.
Proof.
  revert d' l'. induction l as [|d l IH]; simpl; intros d' l'; [discriminate|].
  assert (R : Forall2 same_in_list l l).
  { clear. induction l; constructor; [split; reflexivity | assumption]. }
  destruct (N.eqb (chat_id d) i).
  - intros E. inversion E; subst. constructor; [split; reflexivity | exact R].
  - destruct (update_by_id i l) as [[d0 l0]|]; [|discriminate].
    intros E. inversion E; subst. constructor; [split; reflexivity | eapply IH; reflexivity].
Qed.

Lemma insert_sorted_same_in_list a b l l' :
  same_in_list a b -> Forall2 same_in_list l l' ->
  Forall2 same_in_list (insert_sorted newer_first a l) (insert_sorted newer_first b l').
Proof.
  intros Hab. induction 1 as [|x y l l' Hxy Hl IH]; simpl.
  - constructor; [exact Hab | constructor].
  - unfold newer_first at 1 3. destruct Hab as [Ta La], Hxy as [Tx Lx]. rewrite Ta, Tx.
    destruct (chat_createdAt y <=? chat_createdAt b).
    + constructor; [split; assumption|]. constructor; [split; assumption | exact Hl].
    + constructor; [split; assumption | exact IH].
Qed.

Lemma sort_by_same_in_list l l' :
  Forall2 same_in_list l l' ->
  Forall2 same_in_list (sort_by newer_first l) (sort_by newer_first l').
Proof.
  induction 1 as [|x y l l' Hxy _ IH]; simpl; [constructor|].
  apply insert_sorted_same_in_list; assumption.
Qed.

Lemma same_in_list_items l l' :
  Forall2 same_in_list l l' -> map list_item l = map list_item l'.
Proof.
  induction 1 as [|x y l l' [_ L] _ IH]; simpl; [reflexivity|]. rewrite L, IH. reflexivity.
Qed.

(** X17.  Incrementing a question count does not show in the list: the
    list route answers after the increment what it would have answered
    before it (the same items in the same order), whatever the id. *)
Theorem increment_keeps_list `{Platform} (id : string) (w : World) (e : Env) :
  io_ok 1 w = true -> io_ok 1 (with_env e w) = true ->
  fst (get_api_data (with_env e (snd (post_api_data_increment id w))))
  = fst (get_api_data (with_env e w)).
Proof.
  intros Hio He.
  destruct (castObjectId id) as [i|] eqn:Hc.
  - rewrite (increment_run id i w Hc Hio).
    destruct (update_by_id i (chatData w)) as [[d' l']|] eqn:U; cbn [snd].
    + rewrite !get_api_data_run by exact He. cbn [fst].
      change (chatData (with_env e (set_chatData l'
                (after_io (EvFindByIdAndUpdate CChatData) w)))) with l'.
      change (chatData (with_env e w)) with (chatData w).
      rewrite (same_in_list_items _ _
                 (sort_by_same_in_list _ _ (update_by_id_same_in_list _ _ _ _ U))).
      reflexivity.
    + rewrite !get_api_data_run by exact He. cbn [fst].
      replace (chatData (with_env e (after_io (EvFindByIdAndUpdate CChatData) w)))
        with (chatData (with_env e w))
        by (unfold after_io; destruct (faults w); reflexivity).
      reflexivity.
  - unfold post_api_data_increment, respond, try_catch, findByIdAndUpdate, bind, throw, ret.
    rewrite Hc. reflexivity.
Qed.

Lemma increment_keeps_list_witness :
  io_ok 1 asked_thrice = true
  /\ fst (get_api_data (with_env (no_failures 80)
                          (snd (@post_api_data_increment node "507f1f77bcf86cd799439011"
                                  asked_thrice))))
     = fst (get_api_data (with_env (no_failures 80) asked_thrice)).
Proof.
  split; [reflexivity|].
  apply (@increment_keeps_list node "507f1f77bcf86cd799439011" asked_thrice (no_failures 80));
    reflexivity.
Defined.

(** X18.  Delete, then increment: once a record has been deleted (the
    ids being distinct), an increment of the same id is answered 404. *)
Theorem delete_then_increment_is_404 `{Platform} (id : string) (i : ObjectId) (w : World) (e : Env) :
  castObjectId id = Some i ->
  NoDup (map chat_id (chatData w)) ->
  io_ok 1 w = true -> io_ok 1 (with_env e w) = true ->
  fst (post_api_data_increment id (with_env e (snd (delete_api_data id w))))
  = Some (res_status_json 404 [("error", JStr "Question not found")]).
Proof.
  intros Hc Hnd Hio He.
  rewrite (delete_api_data_run id i w Hc Hio). cbn [snd].
  rewrite (increment_run id i _ Hc) by exact He.
  change (chatData (with_env e (set_chatData (remove_chat i (chatData w))
            (after_io (EvFindByIdAndDelete CChatData) w))))
    with (remove_chat i (chatData w)).
  rewrite (update_by_id_absent _ _ (remove_chat_gone i _ Hnd)). reflexivity.
Qed.

Lemma nodup_asked_thrice : NoDup (map chat_id (chatData asked_thrice)).
Proof.
  change (NoDup [1%N; 24912482966938930280208240657%N; 3%N]).
  repeat (apply NoDup_cons; split; [rewrite ?elem_of_cons, elem_of_nil; intuition discriminate|]).
  apply NoDup_nil. exact I.
Qed.

Lemma delete_then_increment_is_404_witness :
  @castObjectId node "507f1f77bcf86cd799439011" = Some 24912482966938930280208240657%N
  /\ NoDup (map chat_id (chatData asked_thrice))
  /\ io_ok 1 asked_thrice = true
  /\ fst (@post_api_data_increment node "507f1f77bcf86cd799439011"
            (with_env (no_failures 90)
               (snd (@delete_api_data node "507f1f77bcf86cd799439011" asked_thrice))))
     = Some (res_status_json 404 [("error", JStr "Question not found")]).
Proof.
  split; [reflexivity|]. split; [exact nodup_asked_thrice|]. split; [reflexivity|].
  apply (@delete_then_increment_is_404 node "507f1f77bcf86cd799439011" _ asked_thrice
           (no_failures 90) eq_refl nodup_asked_thrice eq_refl eq_refl).
Defined.

Lemma remove_chat_last i l d :
  chat_id d = i -> Forall (fun x => chat_id x <> i) l -> remove_chat i (l ++ [d]) = l.
Proof.
  intros Hd. induction 1 as [|x l Hx _ IH]; simpl.
  - rewrite Hd, N.eqb_refl. reflexivity.
  - destruct (N.eqb_spec (chat_id x) i); [contradiction|]. rewrite IH. reflexivity.
Qed.

(** X19.  Add, then delete: deleting the record that an add has just
    created (by its id, which no other record has) brings the store back
    to what it was before the add. *)
Theorem add_then_delete `{Platform} (t c : string) (w : World) (id : string) (e : Env) :
  t <> "" -> c <> "" -> io_ok 1 w = true ->
  castObjectId id = Some (nextId w) ->
  Forall (fun d => chat_id d <> nextId w) (chatData w) ->
  io_ok 1 (with_env e w) = true ->
  store (snd (delete_api_data id (with_env e (snd (post_api_data (Some t) (Some c) w)))))
  = store w.
Proof.
  intros Ht Hc Hio Hid Hfresh He.
  rewrite post_api_data_run. unfold chat_validation.
  rewrite (required_nonempty (Some t) t eq_refl Ht), (required_nonempty (Some c) c eq_refl Hc).
  pose proof (io_ok_faults w Hio) as F.
  set (d := {| chat_id := nextId w; chat_title := default "" (Some t);
               chat_content := default "" (Some c);
               chat_date := toLocaleString_viVN (clock w);
               questionCount := Some 0; chat_createdAt := clock w |}).
  assert (E : store (snd (delete_api_data id (with_env e
                (set_chatData (chatData w ++ [d])
                   (after_io (EvSave CChatData) (set_nextId (N.succ (nextId w)) w))))))
              = store w).
  { rewrite (delete_api_data_run id (nextId w) _ Hid) by exact He. cbn [snd].
    unfold store. cbn.
    replace (chatData (after_io (EvSave CChatData) (set_nextId (N.succ (nextId w)) w)))
      with (chatData w) by (unfold after_io; simpl; destruct (faults w); reflexivity).
    rewrite (remove_chat_last (nextId w) (chatData w) d eq_refl Hfresh).
    unfold after_io. simpl. destruct (env_faults e), (faults w); reflexivity. }
  cbv zeta. destruct (faults w) as [|[m|] rest]; [exact E | contradiction | exact E].
Qed.

Lemma add_then_delete_witness :
  "How?" <> "" /\ "Like this." <> "" /\ io_ok 1 archive_world = true
  /\ @castObjectId node "000000000000000000000064" = Some (nextId archive_world)
  /\ store (snd (@delete_api_data node "000000000000000000000064"
                   (with_env (no_failures 95)
                      (snd (@post_api_data node (Some "How?") (Some "Like this.")
                              archive_world)))))
     = store archive_world.
Proof.
  split; [discriminate|]. split; [discriminate|]. split; [reflexivity|]. split; [reflexivity|].
  apply (@add_then_delete node "How?" "Like this." archive_world "000000000000000000000064"
           (no_failures 95)); try discriminate; try reflexivity.
  change (Forall (fun d => chat_id d <> 100%N)
            [chat_with 1%N (Some 5) 10; chat_with 24912482966938930280208240657%N (Some 3) 20;
             chat_with 3%N None 30]).
  repeat (constructor; [simpl; discriminate|]). constructor.
Defined.
